(** * Sapphire: event addressing, event registry and the logger module

    A shallow embedding of [sapphire/core/base/events.py] and
    [sapphire/logger/logger.py].  Python integers are unbounded and are
    modelled by [Z]; Python [str] values are modelled by Rocq strings (the
    case conversions below are the ASCII fragment of [str.upper],
    [str.lower] and [str.capitalize]); dictionaries are [gmap]s; class level
    mutable state is threaded explicitly. *)

From Stdlib Require Import ZArith Ascii String DecimalString.
From Stdlib Require DecimalPos DecimalZ.
From stdpp Require Import base strings gmap list.

Local Open Scope Z_scope.
Local Open Scope string_scope.

(** ** Python preliminaries *)

Module Py.

(** Builtin exception classes used by the two source files, with the
    method resolution order of each (CPython's builtin hierarchy). *)
Inductive exn_class :=
| BaseException | Exception | LookupError | KeyError | IndexError
| ValueError | AttributeError | TypeError
| OSError | FileNotFoundError | IsADirectoryError | NotADirectoryError
| PermissionError.

#[global] Instance exn_class_eq_dec : EqDecision exn_class.
Proof. solve_decision. Defined.

Definition exn_mro (c : exn_class) : list exn_class :=
  match c with
  | BaseException => [BaseException]
  | Exception => [Exception; BaseException]
  | LookupError => [LookupError; Exception; BaseException]
  | KeyError => [KeyError; LookupError; Exception; BaseException]
  | IndexError => [IndexError; LookupError; Exception; BaseException]
  | ValueError => [ValueError; Exception; BaseException]
  | AttributeError => [AttributeError; Exception; BaseException]
  | TypeError => [TypeError; Exception; BaseException]
  | OSError => [OSError; Exception; BaseException]
  | FileNotFoundError =>
      [FileNotFoundError; OSError; Exception; BaseException]
  | IsADirectoryError =>
      [IsADirectoryError; OSError; Exception; BaseException]
  | NotADirectoryError =>
      [NotADirectoryError; OSError; Exception; BaseException]
  | PermissionError =>
      [PermissionError; OSError; Exception; BaseException]
  end.

(** [issubclass(c, d)] for exception classes. *)
Definition exn_issubclass (c d : exn_class) : bool :=
  bool_decide (d ∈ exn_mro c).

(** A raised exception: its class and the text of its argument. *)
Record exn := mkExn { exn_cls : exn_class; exn_arg : string }.

(** [isinstance(e, d)], what an [except d:] clause tests. *)
Definition exn_isinstance (e : exn) (d : exn_class) : bool :=
  exn_issubclass (exn_cls e) d.

(** Outcome of a call: a returned value or a raised exception. *)
Inductive result (A : Type) :=
| Ok (a : A)
| Raise (e : exn).
Arguments Ok {A} a.
Arguments Raise {A} e.

(** *** Strings *)

Definition is_lower (c : ascii) : bool :=
  let n := nat_of_ascii c in (97 <=? n)%nat && (n <=? 122)%nat.
Definition is_upper (c : ascii) : bool :=
  let n := nat_of_ascii c in (65 <=? n)%nat && (n <=? 90)%nat.

Definition upper_char (c : ascii) : ascii :=
  if is_lower c then ascii_of_nat (nat_of_ascii c - 32) else c.
Definition lower_char (c : ascii) : ascii :=
  if is_upper c then ascii_of_nat (nat_of_ascii c + 32) else c.

(** [s.upper()] *)
Fixpoint upper (s : string) : string :=
  match s with
  | EmptyString => EmptyString
  | String c r => String (upper_char c) (upper r)
  end.

(** [s.lower()] *)
Fixpoint lower (s : string) : string :=
  match s with
  | EmptyString => EmptyString
  | String c r => String (lower_char c) (lower r)
  end.

(** [s.capitalize()]: first character upper-cased, the rest lower-cased. *)
Definition capitalize (s : string) : string :=
  match s with
  | EmptyString => EmptyString
  | String c r => String (upper_char c) (lower r)
  end.

(** Text made of ASCII characters only. On such text [upper], [lower]
    and [capitalize] above are [str.upper], [str.lower] and
    [str.capitalize]; on other text the methods of [str] follow Unicode and
    are not modelled. *)
Definition ascii_char (c : ascii) : bool :=
  (nat_of_ascii c <? 128)%nat.

Fixpoint ascii_only (s : string) : bool :=
  match s with
  | EmptyString => true
  | String c r => ascii_char c && ascii_only r
  end.

(** [str(n)] for an integer. *)
Definition str_of_int (z : Z) : string :=
  NilZero.string_of_int (Z.to_int z).

(** The line feed character written by ["\n"]. *)
Definition LF : string := String (ascii_of_nat 10) EmptyString.
(** The escape character written by ["\033"]. *)
Definition ESC : string := String (ascii_of_nat 27) EmptyString.

(** *** Calls that change a state and may raise

    [M S A] is a call over a mutable state [S]: it returns or raises, and
    the state changes made before a raise stay. *)
Definition M (S A : Type) : Type := S -> result A * S.

#[global] Instance M_ret {S} : MRet (M S) := fun A a s => (Ok a, s).

#[global] Instance M_bind {S} : MBind (M S) := fun A B k m s =>
  match m s with
  | (Ok a, s') => k a s'
  | (Raise e, s') => (Raise e, s')
  end.

Definition raise {S A} (c : exn_class) (arg : string) : M S A :=
  fun s => (Raise (mkExn c arg), s).

Definition gets {S A} (f : S -> A) : M S A := fun s => (Ok (f s), s).

Definition modify {S} (f : S -> S) : M S unit := fun s => (Ok tt, f s).

(** Reading an attribute that may not have been assigned yet. *)
Definition attribute {S A} (n : string) (f : S -> option A) : M S A :=
  fun s => match f s with
           | Some a => (Ok a, s)
           | None => (Raise (mkExn AttributeError n), s)
           end.

End Py.
Export Py.

(** ** [class Chain] *)

(** The frozen dataclass [Chain(context, flow)]; its [__eq__] compares the
    two fields, which is Leibniz equality on this record. *)
Record Chain := mkChain { context : Z; flow : Z }.

#[global] Instance Chain_eq_dec : EqDecision Chain.
Proof. solve_decision. Defined.

(** [Chain.__str__] *)
Definition Chain_str (c : Chain) : string :=
  "(" +:+ str_of_int (context c) +:+ ":" +:+ str_of_int (flow c) +:+ ")".

(** Dynamically typed scalar values, as a configuration table holds them. *)
Inductive value :=
| VStr (s : string)
| VInt (z : Z)
| VBool (b : bool).

#[global] Instance value_eq_dec : EqDecision value.
Proof. solve_decision. Defined.

(** [str(v)], as used by f-string interpolation. *)
Definition py_str (v : value) : string :=
  match v with
  | VStr s => s
  | VInt z => str_of_int z
  | VBool true => "True"
  | VBool false => "False"
  end.

(** Truth value of [v] in a condition. *)
Definition truthy (v : value) : bool :=
  match v with
  | VStr s => negb (String.eqb s "")
  | VInt z => negb (z =? 0)%Z
  | VBool b => b
  end.

(** Objects a dataclass constructor is handed or a class attribute holds:
    a scalar, a [Chain], or the type object of the builtin class named
    [n]. *)
Inductive pyobj :=
| OVal (v : value)
| OChain (c : Chain)
| OType (n : string).

#[global] Instance pyobj_eq_dec : EqDecision pyobj.
Proof. solve_decision. Defined.

(** ** [class SapphireEvents] *)

Module SapphireEvents.

(** *** The classes declared in [events.py]

    [Cls.t] lists the class objects bound in the namespace of
    [SapphireEvents]: the alias [Chain = Chain] and the nested event
    classes. *)
Module Cls.
Inductive t :=
| Chain
| Event
| InitCompleteEvent
| LogEvent
| ShutdownEvent
| UserInputEvent
| CommandRegisterEvent
| CommandEvent
| CommandExecutedEvent
| ConfirmationEvent
| ErrorEvent
| PromptEvent
| AIResponseEvent
| ClientActivationEvent
| TaskRegisterEvent
| TaskEvent
| TaskCompletionEvent
| TaskMapUpdatedEvent.

#[global] Instance eq_dec : EqDecision t.
Proof. solve_decision. Defined.

(** [c.__name__] *)
Definition name (c : t) : string :=
  match c with
  | Chain => "Chain"
  | Event => "Event"
  | InitCompleteEvent => "InitCompleteEvent"
  | LogEvent => "LogEvent"
  | ShutdownEvent => "ShutdownEvent"
  | UserInputEvent => "UserInputEvent"
  | CommandRegisterEvent => "CommandRegisterEvent"
  | CommandEvent => "CommandEvent"
  | CommandExecutedEvent => "CommandExecutedEvent"
  | ConfirmationEvent => "ConfirmationEvent"
  | ErrorEvent => "ErrorEvent"
  | PromptEvent => "PromptEvent"
  | AIResponseEvent => "AIResponseEvent"
  | ClientActivationEvent => "ClientActivationEvent"
  | TaskRegisterEvent => "TaskRegisterEvent"
  | TaskEvent => "TaskEvent"
  | TaskCompletionEvent => "TaskCompletionEvent"
  | TaskMapUpdatedEvent => "TaskMapUpdatedEvent"
  end.

(** The base written in the class statement ([None] for a class that
    only derives from [object]). *)
Definition base (c : t) : option t :=
  match c with
  | Chain => None
  | Event => None
  | _ => Some Event
  end.

(** Method resolution order, [object] left out. *)
Definition mro (c : t) : list t :=
  match base c with
  | None => [c]
  | Some b => [c; b]
  end.

(** [issubclass(c, d)] *)
Definition issubclass (c d : t) : bool := bool_decide (d ∈ mro c).

(** A statement of a class body that binds a name. *)
Inductive member :=
| Ann (n : string) (ty : string) (default : option pyobj)
  (** [n: ty] or [n: ty = default] *)
| Assign (n : string) (v : pyobj)
  (** [n = v] *)
| Def (n : string).
  (** [def n(self, ...)] *)

(** The body of each class statement, in source order. *)
Definition body (c : t) : list member :=
  match c with
  | Chain =>
      [Ann "context" "int" None; Ann "flow" "int" None;
       Def "__str__"; Def "__repr__"; Def "__eq__"]
  | Event =>
      [Ann "sender" "str" None; Ann "timestamp" "str" None;
       Ann "chain" "Chain" None]
  | InitCompleteEvent => []
  | LogEvent =>
      [Ann "level" "Literal['debug', 'info', 'warning', 'critical']" None;
       Ann "message" "str" None]
  | ShutdownEvent =>
      [Ann "emergency" "bool" None;
       Ann "situation" "Literal['request', 'failure', 'critical', 'user']" None;
       Ann "message" "str" (Some (OVal (VStr "")))]
  | UserInputEvent => [Ann "message" "str" None]
  | CommandRegisterEvent =>
      [Ann "module" "str" None; Ann "cmd" "str" None; Ann "info" "str" None;
       Ann "func" "Callable[[list[str], 'SapphireEvents.Chain'], str]" None]
  | CommandEvent =>
      [Ann "module" "str" None; Ann "cmd" "str" None;
       Ann "args" "list[str]" None]
  | CommandExecutedEvent =>
      [Ann "cmd" "tuple[str, str, list[str]]" None;
       Ann "success" "bool" None; Ann "output" "str" None]
  | ConfirmationEvent =>
      [Ann "message" "str" None; Ann "options" "list[str]" None;
       Ann "selected" "str | None" None]
  | ErrorEvent =>
      [Ann "error" "str" None; Assign "message" (OType "str")]
  | PromptEvent => [Ann "content" "str" None]
  | AIResponseEvent =>
      [Ann "message" "str" None; Ann "extras" "dict[str, Any]" None]
  | ClientActivationEvent => [Ann "message" "str" None]
  | TaskRegisterEvent =>
      [Ann "module" "str" None; Ann "name" "str" None;
       Ann "args" "list[str]" None; Ann "info" "str" None;
       Ann "func" "Callable[[list[str], Chain], str]" None]
  | TaskEvent =>
      [Ann "module" "str" None; Ann "name" "str" None;
       Ann "args" "list[str]" None]
  | TaskCompletionEvent =>
      [Ann "module" "str" None; Ann "name" "str" None;
       Ann "args" "list[str]" None; Ann "success" "bool" None;
       Ann "output" "str" None]
  | TaskMapUpdatedEvent =>
      [Ann "active_mods" "dict[str, list[tuple[str, str, list[str]]]]" None]
  end.

(** *** What [@dataclass(frozen = True)] makes of a class body *)

(** The fields a class body declares itself: its annotated names, each
    with its default. An unannotated assignment declares no field. *)
Definition own_fields (c : t) : list (string * option pyobj) :=
  omap (fun m => match m with
                 | Ann n _ d => Some (n, d)
                 | _ => None
                 end) (body c).

(** All fields, those of the bases first: the parameters of the
    generated [__init__], in order. *)
Definition fields (c : t) : list (string * option pyobj) :=
  mbind own_fields (reverse (mro c)).

(** The attributes a class body leaves on the class object itself:
    assigned names and the defaults of fields. *)
Definition own_class_attrs (c : t) : list (string * pyobj) :=
  omap (fun m => match m with
                 | Assign n v => Some (n, v)
                 | Ann n _ (Some v) => Some (n, v)
                 | _ => None
                 end) (body c).

(** Attribute lookup on the class, along the method resolution order. *)
Definition class_attr (c : t) (n : string) : option pyobj :=
  (list_to_map (mbind own_class_attrs (mro c)) : gmap string pyobj) !! n.

(** The generated [__init__] called with positional arguments: binds the
    arguments to the fields in order, fills trailing fields from their
    defaults, and raises [TypeError] on a missing or a surplus
    argument. The result is the instance's own attribute dictionary. *)
Fixpoint bind_args (fs : list (string * option pyobj)) (args : list pyobj)
  : result (gmap string pyobj) :=
  match fs, args with
  | [], [] => Ok ∅
  | [], _ :: _ => Raise (mkExn TypeError "too many positional arguments")
  | (n, _) :: fs', a :: args' =>
      match bind_args fs' args' with
      | Ok m => Ok (<[n := a]> m)
      | Raise e => Raise e
      end
  | (n, Some v) :: fs', [] =>
      match bind_args fs' [] with
      | Ok m => Ok (<[n := v]> m)
      | Raise e => Raise e
      end
  | (n, None) :: _, [] =>
      Raise (mkExn TypeError ("missing required positional argument: " +:+ n))
  end.

Definition init (c : t) (args : list pyobj) : result (gmap string pyobj) :=
  bind_args (fields c) args.

(** [getattr(obj, n)] on an instance of [c] whose own attributes are
    [d]: the instance dictionary first, then the class. *)
Definition getattr (c : t) (d : gmap string pyobj) (n : string)
  : result pyobj :=
  match d !! n with
  | Some v => Ok v
  | None =>
      match class_attr c n with
      | Some v => Ok v
      | None => Raise (mkExn AttributeError n)
      end
  end.
End Cls.

(** *** Event values

    [Event.t] holds the three fields every event inherits from the base
    class; [event] is an instance of one of the event classes with the
    payload its class declares. *)
Module Event.
Record t := mk { sender : string; timestamp : string; chain : Chain }.
End Event.

Inductive event :=
| Event (b : Event.t)
| InitCompleteEvent (b : Event.t)
| LogEvent (b : Event.t) (level : string) (message : string)
| ShutdownEvent (b : Event.t) (emergency : bool) (situation : string)
    (message : string)
| UserInputEvent (b : Event.t) (message : string)
| CommandRegisterEvent (b : Event.t) (module cmd info : string)
    (func : list string -> Chain -> string)
| CommandEvent (b : Event.t) (module cmd : string) (args : list string)
| CommandExecutedEvent (b : Event.t) (cmd : string * string * list string)
    (success : bool) (output : string)
| ConfirmationEvent (b : Event.t) (message : string) (options : list string)
    (selected : option string)
| ErrorEvent (b : Event.t) (error : string)
| PromptEvent (b : Event.t) (content : string)
| AIResponseEvent (b : Event.t) (message : string)
    (extras : gmap string value)
| ClientActivationEvent (b : Event.t) (message : string)
| TaskRegisterEvent (b : Event.t) (module name : string) (args : list string)
    (info : string) (func : list string -> Chain -> string)
| TaskEvent (b : Event.t) (module name : string) (args : list string)
| TaskCompletionEvent (b : Event.t) (module name : string)
    (args : list string) (success : bool) (output : string)
| TaskMapUpdatedEvent (b : Event.t)
    (active_mods : gmap string (list (string * string * list string))).

(** The inherited part of an event. *)
Definition base (e : event) : Event.t :=
  match e with
  | Event b | InitCompleteEvent b | LogEvent b _ _ | ShutdownEvent b _ _ _
  | UserInputEvent b _ | CommandRegisterEvent b _ _ _ _
  | CommandEvent b _ _ _ | CommandExecutedEvent b _ _ _
  | ConfirmationEvent b _ _ _ | ErrorEvent b _ | PromptEvent b _
  | AIResponseEvent b _ _ | ClientActivationEvent b _
  | TaskRegisterEvent b _ _ _ _ _ | TaskEvent b _ _ _
  | TaskCompletionEvent b _ _ _ _ _ | TaskMapUpdatedEvent b _ => b
  end.

(** [type(e)] *)
Definition class_of (e : event) : Cls.t :=
  match e with
  | Event _ => Cls.Event
  | InitCompleteEvent _ => Cls.InitCompleteEvent
  | LogEvent _ _ _ => Cls.LogEvent
  | ShutdownEvent _ _ _ _ => Cls.ShutdownEvent
  | UserInputEvent _ _ => Cls.UserInputEvent
  | CommandRegisterEvent _ _ _ _ _ => Cls.CommandRegisterEvent
  | CommandEvent _ _ _ _ => Cls.CommandEvent
  | CommandExecutedEvent _ _ _ _ => Cls.CommandExecutedEvent
  | ConfirmationEvent _ _ _ _ => Cls.ConfirmationEvent
  | ErrorEvent _ _ => Cls.ErrorEvent
  | PromptEvent _ _ => Cls.PromptEvent
  | AIResponseEvent _ _ _ => Cls.AIResponseEvent
  | ClientActivationEvent _ _ => Cls.ClientActivationEvent
  | TaskRegisterEvent _ _ _ _ _ _ => Cls.TaskRegisterEvent
  | TaskEvent _ _ _ _ => Cls.TaskEvent
  | TaskCompletionEvent _ _ _ _ _ _ => Cls.TaskCompletionEvent
  | TaskMapUpdatedEvent _ _ => Cls.TaskMapUpdatedEvent
  end.

(** *** Class level state

    The mutable class attributes [_intern_chain], [_current_context] and
    [_intern_map]. The lock [_lock] is taken and released inside a single
    call; calls are executed one after the other here, so the lock is free
    at every call and [with cls._lock:] runs its body. *)
Record state := mkState {
  _intern_chain : Chain;
  _current_context : Z;
  _intern_map : gmap string Cls.t
}.

(** The values the class body assigns. *)
Definition initial : state :=
  {| _intern_chain := mkChain 0 0;
     _current_context := 0;
     _intern_map := ∅ |}.

Definition set_intern_chain (c : Chain) (s : state) : state :=
  {| _intern_chain := c;
     _current_context := _current_context s;
     _intern_map := _intern_map s |}.

Definition set_current_context (n : Z) (s : state) : state :=
  {| _intern_chain := _intern_chain s;
     _current_context := n;
     _intern_map := _intern_map s |}.

Definition set_intern_map (m : gmap string Cls.t) (s : state) : state :=
  {| _intern_chain := _intern_chain s;
     _current_context := _current_context s;
     _intern_map := m |}.

(** *** [chain]

    The [else] branch is two steps: the read [chain = cls._intern_chain],
    made before the lock is taken, and the write of
    [Chain(0, chain.flow + 1)] made under the lock. *)
Definition chain_read (s : state) : Chain := _intern_chain s.

Definition chain_write (snapshot : Chain) (s : state) : state :=
  set_intern_chain (mkChain 0 (flow snapshot + 1)) s.

(** [SapphireEvents.chain(event)]; the argument is [None] or an event, and
    every [event] value is an instance of [cls.Event]. *)
Definition chain (event : option event) (s : state) : Chain * state :=
  match event with
  | Some e => (Event.chain (base e), s)
  | None =>
      let chain := chain_read s in
      (chain, chain_write chain s)
  end.

(** *** [new_context_chain]

    Two steps as well: the increment [cls._current_context += 1], made
    under the lock, and the read of the counter that builds
    [Chain(cls._current_context, 0)], made after the lock is released. *)
Definition context_advance (s : state) : state :=
  set_current_context (_current_context s + 1) s.

Definition context_read (s : state) : Chain :=
  mkChain (_current_context s) 0.

(** [SapphireEvents.new_context_chain()] run without another call in
    between its two steps. *)
Definition new_context_chain (s : state) : Chain * state :=
  let s' := context_advance s in
  (context_read s', s').

(** *** Overlapping calls

    A call of [chain()] or of [new_context_chain()] made by one thread, as
    far as it has got. The statements under the lock are one step; the
    statements outside the lock are steps of their own, between which
    another thread may run. *)
Inductive pending :=
| Chain_called
  (** [chain()] entered *)
| Chain_holding (snapshot : Chain)
  (** [chain = cls._intern_chain] done, the locked write still to come *)
| Context_called
  (** [new_context_chain()] entered *)
| Context_advanced
  (** the locked increment done, [Chain(cls._current_context, 0)] still to
      be built *)
| Returned (c : Chain).

(** The next step of a call. *)
Definition advance (p : pending) (s : state) : pending * state :=
  match p with
  | Chain_called => (Chain_holding (chain_read s), s)
  | Chain_holding snapshot => (Returned snapshot, chain_write snapshot s)
  | Context_called => (Context_advanced, context_advance s)
  | Context_advanced => (Returned (context_read s), s)
  | Returned c => (Returned c, s)
  end.

(** Threads taking steps in the order of a schedule, which names at each
    turn the thread that runs. *)
Fixpoint interleave (schedule : list nat) (threads : list pending)
    (s : state) : list pending * state :=
  match schedule with
  | [] => (threads, s)
  | i :: rest =>
      match threads !! i with
      | Some p =>
          let r := advance p s in
          interleave rest (<[i := r.1]> threads) r.2
      | None => interleave rest threads s
      end
  end.

(** *** [make_timestamp]

    [datetime.now()] read off the wall clock, and its
    [strftime("%H:%M:%S")]: three zero padded two digit decimal fields. *)
Record datetime := mkTime { hour : Z; minute : Z; second : Z }.

Definition two_digits (n : Z) : string :=
  if (n <? 10)%Z then "0" +:+ str_of_int n else str_of_int n.

Definition strftime_HMS (t : datetime) : string :=
  two_digits (hour t) +:+ ":" +:+ two_digits (minute t) +:+ ":"
  +:+ two_digits (second t).

Definition make_timestamp (now : datetime) : string := strftime_HMS now.

(** *** [serialize]

    [SapphireEvents.__dict__], in definition order. [AClass c] is an entry
    whose value is a class object; [AObject] is any value that is not an
    instance of [type] (strings, the lock, a [Chain] instance, an integer,
    a dictionary, classmethod objects, descriptors). *)
Inductive attr :=
| AClass (c : Cls.t)
| AObject.

Definition namespace : list (string * attr) :=
  [("__module__", AObject);
   ("__qualname__", AObject);
   ("__doc__", AObject);
   ("Chain", AClass Cls.Chain);
   ("_lock", AObject);
   ("_intern_chain", AObject);
   ("_current_context", AObject);
   ("_intern_map", AObject);
   ("__annotations__", AObject);
   ("chain", AObject);
   ("new_context_chain", AObject);
   ("make_timestamp", AObject);
   ("serialize", AObject);
   ("Event", AClass Cls.Event);
   ("InitCompleteEvent", AClass Cls.InitCompleteEvent);
   ("LogEvent", AClass Cls.LogEvent);
   ("ShutdownEvent", AClass Cls.ShutdownEvent);
   ("UserInputEvent", AClass Cls.UserInputEvent);
   ("CommandRegisterEvent", AClass Cls.CommandRegisterEvent);
   ("CommandEvent", AClass Cls.CommandEvent);
   ("CommandExecutedEvent", AClass Cls.CommandExecutedEvent);
   ("ConfirmationEvent", AClass Cls.ConfirmationEvent);
   ("ErrorEvent", AClass Cls.ErrorEvent);
   ("PromptEvent", AClass Cls.PromptEvent);
   ("AIResponseEvent", AClass Cls.AIResponseEvent);
   ("ClientActivationEvent", AClass Cls.ClientActivationEvent);
   ("TaskRegisterEvent", AClass Cls.TaskRegisterEvent);
   ("TaskEvent", AClass Cls.TaskEvent);
   ("TaskCompletionEvent", AClass Cls.TaskCompletionEvent);
   ("TaskMapUpdatedEvent", AClass Cls.TaskMapUpdatedEvent);
   ("__dict__", AObject);
   ("__weakref__", AObject)].

(** One turn of the loop over [SapphireEvents.__dict__.items()]. *)
Definition scan_item (m : gmap string Cls.t) (item : string * attr)
  : gmap string Cls.t :=
  match item.2 with
  | AObject => m
  | AClass c =>
      if Cls.issubclass c Cls.Event then <[item.1 := c]> m else m
  end.

(** The loop that fills [_intern_map]. *)
Definition scan (m : gmap string Cls.t) : gmap string Cls.t :=
  foldl scan_item m namespace.

(** [SapphireEvents.serialize(event)] *)
Definition serialize (event : string) (s : state)
  : result Cls.t * state :=
  let s1 :=
    if bool_decide (_intern_map s = ∅)
    then set_intern_map (scan (_intern_map s)) s
    else s in
  match _intern_map s1 !! event with
  | None => (Raise (mkExn ValueError ("Unknown event: " +:+ event)), s1)
  | Some c => (Ok c, s1)
  end.

(** *** Histories of calls

    A call of one of the class methods, what it returned, and the run of a
    list of calls from a state. *)
Inductive call :=
| Call_chain (event : option event)
| Call_new_context_chain
| Call_serialize (event : string).

Inductive returned :=
| RChain (c : Chain)
| RClass (r : result Cls.t).

Definition step (c : call) (s : state) : returned * state :=
  match c with
  | Call_chain e => let r := chain e s in (RChain r.1, r.2)
  | Call_new_context_chain =>
      let r := new_context_chain s in (RChain r.1, r.2)
  | Call_serialize n => let r := serialize n s in (RClass r.1, r.2)
  end.

Fixpoint run (cs : list call) (s : state)
  : list (call * returned) * state :=
  match cs with
  | [] => ([], s)
  | c :: cs' =>
      let r := step c s in
      let rest := run cs' r.2 in
      ((c, r.1) :: rest.1, rest.2)
  end.

(** The chains returned by the calls [chain()] of a history. *)
Definition fresh_chains (h : list (call * returned)) : list Chain :=
  omap (fun cr => match cr with
                  | (Call_chain None, RChain c) => Some c
                  | _ => None
                  end) h.

(** The chains returned by the calls [new_context_chain()] of a history. *)
Definition context_chains (h : list (call * returned)) : list Chain :=
  omap (fun cr => match cr with
                  | (Call_new_context_chain, RChain c) => Some c
                  | _ => None
                  end) h.

(** The declared concrete event classes, in source order. *)
Definition concrete_events : list Cls.t :=
  [Cls.InitCompleteEvent; Cls.LogEvent; Cls.ShutdownEvent;
   Cls.UserInputEvent; Cls.CommandRegisterEvent; Cls.CommandEvent;
   Cls.CommandExecutedEvent; Cls.ConfirmationEvent; Cls.ErrorEvent;
   Cls.PromptEvent; Cls.AIResponseEvent; Cls.ClientActivationEvent;
   Cls.TaskRegisterEvent; Cls.TaskEvent; Cls.TaskCompletionEvent;
   Cls.TaskMapUpdatedEvent].

End SapphireEvents.

(** ** [logger.py] *)

Module Color.
Definition RESET : string := ESC +:+ "[0m".
Definition RED : string := ESC +:+ "[31m".
Definition GREEN : string := ESC +:+ "[32m".
Definition YELLOW : string := ESC +:+ "[33m".
Definition BLUE : string := ESC +:+ "[34m".
Definition MAGENTA : string := ESC +:+ "[35m".
Definition CYAN : string := ESC +:+ "[36m".
Definition GRAY : string := ESC +:+ "[90m".

Definition colorify (text color : string) : string :=
  color +:+ text +:+ RESET.

Definition level_map : gmap string string :=
  list_to_map
    [("debug", CYAN); ("info", GREEN); ("warning", YELLOW);
     ("critical", RED)].
End Color.

Definition LEVELS : gmap string Z :=
  list_to_map [("debug", 0); ("info", 1); ("warning", 2); ("critical", 3)].

(** [d[k]] on a dictionary with string keys. *)
Definition getitem {S A} (d : gmap string A) (k : string) : M S A :=
  match d !! k with
  | Some a => mret a
  | None => raise KeyError k
  end.

Module Logger.
Import SapphireEvents.

(** What the logger acts on besides itself: the class level state of
    [SapphireEvents], the wall clock, the paths the operating system
    refuses to open with the error it gives for each, the files by path,
    the lines printed to the terminal and the events given to
    [emit_event], oldest first. *)
Record world := mkWorld {
  events : SapphireEvents.state;
  now : datetime;
  refused : gmap string exn_class;
  files : gmap string string;
  stdout : list string;
  emitted : list event
}.

(** The instance: the configuration given to [__init__] and the three
    attributes [start] assigns, unset until then. *)
Record t := mkLogger {
  config : gmap string value;
  log_file : option string;
  log_level : option value;
  to_terminal : option value
}.

(** [Logger(emit_event, config)] *)
Definition __init__ (config : gmap string value) : t :=
  {| config := config; log_file := None; log_level := None;
     to_terminal := None |}.

(** [Logger.name()] *)
Definition name : string := "logger".

Abbreviation act := (M (t * world)).

Definition set_log_file (p : string) : act unit :=
  modify (fun '(self, w) =>
    ({| config := config self; log_file := Some p;
        log_level := log_level self; to_terminal := to_terminal self |}, w)).

Definition set_log_level (v : value) : act unit :=
  modify (fun '(self, w) =>
    ({| config := config self; log_file := log_file self;
        log_level := Some v; to_terminal := to_terminal self |}, w)).

Definition set_to_terminal (v : value) : act unit :=
  modify (fun '(self, w) =>
    ({| config := config self; log_file := log_file self;
        log_level := log_level self; to_terminal := Some v |}, w)).

(** Modelled from the spec: [SapphireConfig.get] is not among the sources;
    the configuration is a read-only key/value view whose missing keys
    fall back to the stated default. *)
Definition config_get (key : string) (fallback : value) : act value :=
  gets (fun '(self, _) => default fallback (config self !! key)).

(** Modelled from the spec: the emission callback [emit_event] given to
    the module at construction is not among the sources; it publishes the
    event onto the bus. *)
Definition emit_event (e : event) : act unit :=
  modify (fun '(self, w) =>
    (self, {| events := events w; now := now w; refused := refused w;
              files := files w; stdout := stdout w;
              emitted := emitted w ++ [e] |})).

(** Modelled from the spec: [SapphireModule.log] is not among the sources;
    it emits one log event of the given level and message, sent by this
    module and stamped with the current time. *)
Definition log (chain : Chain) (level message : string) : act unit :=
  stamp ← gets (fun '(_, w) => make_timestamp (now w));
  emit_event (LogEvent (Event.mk name stamp chain) level message).

(** [SapphireEvents.chain()] on the class state held in the world. *)
Definition fresh_chain : act Chain :=
  fun '(self, w) =>
    let r := SapphireEvents.chain None (events w) in
    (Ok r.1, (self, {| events := r.2; now := now w; refused := refused w;
                       files := files w; stdout := stdout w;
                       emitted := emitted w |})).

(** [x in LEVELS.keys()] *)
Definition in_LEVELS (x : value) : bool :=
  match x with
  | VStr s => bool_decide (is_Some (LEVELS !! s))
  | _ => false
  end.

(** [LEVELS[x]] *)
Definition LEVELS_getitem (x : value) : act Z :=
  match x with
  | VStr s => getitem LEVELS s
  | _ => raise KeyError (py_str x)
  end.

(** [Logger.start]; [abspath] is [os.path.abspath]. *)
Definition start (abspath : string -> string) : act unit :=
  path ← config_get "logfile" (VStr "sapphire.log");
  match path with
  | VStr p => set_log_file p
  | _ => mret tt
  end;;
  c ← fresh_chain;
  f ← attribute "log_file" (fun '(self, _) => log_file self);
  log c "info" ("Now logging into file: " +:+ abspath f);;
  lvl ← config_get "level" (VStr "info");
  set_log_level lvl;;
  (if negb (in_LEVELS lvl) then
     c ← fresh_chain;
     l ← attribute "log_level" (fun '(self, _) => log_level self);
     log c "warning"
       ("Invalid log level specified in config.toml '" +:+ py_str l
        +:+ "'. Defaulting to 'info'");;
     set_log_level (VStr "info")
   else mret tt);;
  term ← config_get "terminal" (VBool true);
  set_to_terminal term.

(** The text [file_log] writes for a log event. *)
Definition file_line (b : Event.t) (level message : string) : string :=
  "[" +:+ Event.timestamp b +:+ "] [" +:+ upper level +:+ "] ("
  +:+ capitalize (Event.sender b) +:+ ") " +:+ message +:+ LF.

(** Why [open(path, "a+")] fails, if it does: the empty path names no
    file, and the operating system refuses the paths in [refused]. *)
Definition open_error (w : world) (path : string) : option exn_class :=
  if String.eqb path "" then Some FileNotFoundError else refused w !! path.

(** [open(path, "a+")], which may raise, then [file.write(text)] and the
    close: the text goes to the end of the file, which is created when
    absent. *)
Definition append_file (path text : string) : act unit :=
  failure ← gets (fun '(_, w) => open_error w path);
  match failure with
  | Some c => raise c path
  | None => mret tt
  end;;
  modify (fun '(self, w) =>
    (self, {| events := events w; now := now w; refused := refused w;
              files := <[path := default "" (files w !! path) +:+ text]>
                         (files w);
              stdout := stdout w; emitted := emitted w |})).

(** [Logger.file_log] *)
Definition file_log (b : Event.t) (level message : string) : act unit :=
  let log_str := file_line b level message in
  path ← attribute "log_file" (fun '(self, _) => log_file self);
  append_file path log_str.

(** [print(text)] *)
Definition print (text : string) : act unit :=
  modify (fun '(self, w) =>
    (self, {| events := events w; now := now w; refused := refused w;
              files := files w; stdout := stdout w ++ [text];
              emitted := emitted w |})).

(** The text [terminal_log] prints, given the colour of the level. *)
Definition terminal_line (b : Event.t) (level message colour : string)
  : string :=
  let timestamp := "[" +:+ Event.timestamp b +:+ "]" in
  let level := Color.colorify ("[" +:+ upper level +:+ "]") colour in
  let sender :=
    Color.colorify ("(" +:+ Event.sender b +:+ ")") Color.MAGENTA in
  timestamp +:+ " " +:+ level +:+ " " +:+ sender +:+ " " +:+ message.

(** [Logger.terminal_log] *)
Definition terminal_log (b : Event.t) (level message : string) : act unit :=
  colour ← getitem Color.level_map level;
  print (terminal_line b level message colour).

(** [Logger.handle] *)
Definition handle (event : event) : act unit :=
  match event with
  | LogEvent b level message =>
      rank ← LEVELS_getitem (VStr level);
      l ← attribute "log_level" (fun '(self, _) => log_level self);
      threshold ← LEVELS_getitem l;
      if (rank >=? threshold)%Z then
        file_log b level message;;
        term ← attribute "to_terminal" (fun '(self, _) => to_terminal self);
        if truthy term then terminal_log b level message else mret tt
      else mret tt
  | UserInputEvent _ _ => mret tt
  | _ => mret tt
  end.

(** [Logger.handled_events] *)
Definition handled_events : list Cls.t := [Cls.LogEvent; Cls.UserInputEvent].

(** [Logger.end] *)
Definition end_ : bool * string := (true, "").

End Logger.

(** ** Vocabulary of the properties *)

Import SapphireEvents.

(** The calls [chain()] and the calls [new_context_chain()] of a list of
    calls. *)
Definition is_fresh_call (c : call) : bool :=
  match c with
  | Call_chain None => true
  | _ => false
  end.

Definition is_context_call (c : call) : bool :=
  match c with
  | Call_new_context_chain => true
  | _ => false
  end.

(** [serialize(name)] called after a history of calls from the initial
    class state. *)
Definition resolve (cs : list call) (name : string) : result Cls.t :=
  (serialize name (run cs initial).2).1.

(** The names in [names] are exactly the ones [serialize] resolves. *)
Definition resolvable_exactly (names : list string) : Prop :=
  ∀ cs name, (∃ c, resolve cs name = Ok c) ↔ name ∈ names.

(** Every name outside [known] makes [serialize] raise an exception that
    is an instance of the class [cls]. *)
Definition unknown_raises (known : list string) (cls : exn_class) : Prop :=
  ∀ cs name, name ∉ known →
    ∃ e, resolve cs name = Raise e ∧ exn_isinstance e cls = true.

(** The event classes: the base class and the concrete ones. *)
Definition event_classes : list Cls.t := Cls.Event :: concrete_events.

(** The entries of a namespace that the loop of [serialize] puts into the
    table, in the order it meets them. *)
Definition registered (ns : list (string * attr)) : list (string * Cls.t) :=
  omap (fun item =>
          match item.2 with
          | AClass c =>
              if Cls.issubclass c Cls.Event then Some (item.1, c) else None
          | AObject => None
          end) ns.

(** The log events of level [warning]. *)
Definition is_warning_log (e : event) : bool :=
  match e with
  | LogEvent _ level _ => String.eqb level "warning"
  | _ => false
  end.

(** A started logger and a world with one earlier line in its log file,
    on which the properties of the logger are tried. *)
Definition sample_logger : Logger.t :=
  Logger.mkLogger ∅ (Some "sapphire.log") (Some (VStr "warning"))
    (Some (VBool true)).

Definition sample_world : Logger.world :=
  Logger.mkWorld initial (mkTime 9 5 33) ∅
    {["sapphire.log" := "earlier" +:+ LF]} [] [].

Definition sample_base : Event.t :=
  Event.mk "logger" "09:05:33" (mkChain 0 0).

(** The chains handed out by the allocating calls of a history, [chain()]
    and [new_context_chain()] alike, in order. *)
Definition allocated_chains (h : list (call * returned)) : list Chain :=
  omap (fun cr => match cr with
                  | (Call_chain None, RChain c) => Some c
                  | (Call_new_context_chain, RChain c) => Some c
                  | _ => None
                  end) h.

Definition is_serialize_call (c : call) : bool :=
  match c with
  | Call_serialize _ => true
  | _ => false
  end.

(** A time of day as [datetime.now()] gives it. *)
Definition valid_time (t : datetime) : Prop :=
  0 ≤ hour t < 24 ∧ 0 ≤ minute t < 60 ∧ 0 ≤ second t < 60.

(** The character of the decimal digit [k]. *)
Definition digit_char (k : Z) : ascii := ascii_of_nat (48 + Z.to_nat k).

(** The number of line feeds in a text. *)
Fixpoint count_LF (s : string) : nat :=
  match s with
  | EmptyString => 0
  | String c r =>
      ((if Ascii.eqb c (ascii_of_nat 10) then 1 else 0) + count_LF r)%nat
  end.

(** The characters of a text. *)
Fixpoint chars (s : string) : list ascii :=
  match s with
  | EmptyString => []
  | String c r => c :: chars r
  end.

(** A started logger whose log file is the empty path, which [start]
    accepts from the configuration and [open] always refuses. *)
Definition pathless_logger : Logger.t :=
  Logger.mkLogger ∅ (Some "") (Some (VStr "warning")) (Some (VBool true)).

(** A message that spans two lines. *)
Definition two_line_message : string := "first" +:+ LF +:+ "second".

(** The wording of C5: on a started logger, a log event of a known level
    is written to the log file exactly when its rank reaches the rank of
    the configured level. *)
Definition written_iff_rank_reaches : Prop :=
  ∀ (self : Logger.t) (w : Logger.world) (b : Event.t)
    (level message path configured : string) (term : value)
    (rank threshold : Z),
    Logger.log_file self = Some path →
    Logger.log_level self = Some (VStr configured) →
    Logger.to_terminal self = Some term →
    LEVELS !! level = Some rank →
    LEVELS !! configured = Some threshold →
    ((threshold ≤ rank)%Z ↔
     Logger.files
       (Logger.handle (LogEvent b level message) (self, w)).2.2 !! path
     = Some (default "" (Logger.files w !! path)
             +:+ Logger.file_line b level message)).

(** The wording of C6: on a started logger, [file_log] adds exactly one
    line to the log file. *)
Definition appends_exactly_one_line : Prop :=
  ∀ (self : Logger.t) (w : Logger.world) (b : Event.t)
    (level message path : string),
    Logger.log_file self = Some path →
    ∃ line,
      Logger.files (Logger.file_log b level message (self, w)).2.2 !! path
      = Some (default "" (Logger.files w !! path) +:+ line)
      ∧ count_LF line = 1%nat.

(** * Properties *)

(** ** The allocator *)

Lemma serialize_allocator (n : string) (s : state) :
  _intern_chain (serialize n s).2 = _intern_chain s
  ∧ _current_context (serialize n s).2 = _current_context s.
Proof.
  unfold serialize. case_bool_decide; destruct (_ !! n); done.
Qed.

(** What a history does to the cursor: the [i]-th chain handed out by
    [chain()] carries the starting flow plus [i], and the cursor ends that
    many steps further. *)
Lemma run_fresh_chains (cs : list call) (s : state) :
  let out := fresh_chains (run cs s).1 in
  length out = length (filter is_fresh_call cs)
  ∧ (∀ (i : nat) c, out !! i = Some c →
       flow c = flow (_intern_chain s) + Z.of_nat i)
  ∧ flow (_intern_chain (run cs s).2)
    = flow (_intern_chain s) + Z.of_nat (length out).
Proof.
  revert s. induction cs as [|c cs IH]; intros s; simpl.
  - split_and!; [done | by intros i c [=] | lia].
  - destruct c as [[e|]| |n]; simpl;
      unfold context_read, context_advance; simpl.
    + apply IH.
    + destruct (IH (chain_write (chain_read s) s)) as (Hlen & Hnth & Hend).
      unfold chain_read in *. simpl in *. split_and!.
      * by rewrite Hlen.
      * intros [|i] c Hc; simpl in Hc.
        { injection Hc as <-. lia. }
        rewrite (Hnth i c Hc). lia.
      * rewrite Hend. lia.
    + apply (IH (set_current_context (_current_context s + 1) s)).
    + destruct (IH (serialize n s).2) as (Hlen & Hnth & Hend).
      destruct (serialize_allocator n s) as [Hc _].
      rewrite Hc in Hnth, Hend. done.
Qed.

(** What a history does to the context counter: the [i]-th chain handed
    out by [new_context_chain()] is [Chain(c0 + 1 + i, 0)]. *)
Lemma run_context_chains (cs : list call) (s : state) :
  let out := context_chains (run cs s).1 in
  length out = length (filter is_context_call cs)
  ∧ (∀ (i : nat) c, out !! i = Some c →
       c = mkChain (_current_context s + 1 + Z.of_nat i) 0)
  ∧ _current_context (run cs s).2
    = _current_context s + Z.of_nat (length out).
Proof.
  revert s. induction cs as [|c cs IH]; intros s; simpl.
  - split_and!; [done | by intros i c [=] | lia].
  - destruct c as [[e|]| |n]; simpl;
      unfold context_read, context_advance; simpl.
    + apply IH.
    + apply (IH (chain_write (chain_read s) s)).
    + destruct (IH (set_current_context (_current_context s + 1) s))
        as (Hlen & Hnth & Hend).
      simpl in *. split_and!.
      * by rewrite Hlen.
      * intros [|i] c Hc; simpl in Hc.
        { injection Hc as <-. f_equal. lia. }
        rewrite (Hnth i c Hc). f_equal. lia.
      * rewrite Hend. lia.
    + destruct (IH (serialize n s).2) as (Hlen & Hnth & Hend).
      destruct (serialize_allocator n s) as [_ Hc].
      rewrite Hc in Hnth, Hend. done.
Qed.

(** A list whose [i]-th element is sent to [a + i] by [f] has no two
    elements with the same image. *)
Lemma NoDup_fmap_arith {A} (f : A → Z) (a : Z) (l : list A) :
  (∀ (i : nat) x, l !! i = Some x → f x = a + Z.of_nat i) →
  NoDup (f <$> l).
Proof.
  intros Hnth. apply NoDup_alt. intros i j z Hi Hj.
  rewrite list_lookup_fmap in Hi, Hj.
  destruct (l !! i) as [x|] eqn:Hx; [|done].
  destruct (l !! j) as [y|] eqn:Hy; [|done].
  simpl in *. injection Hi as <-. injection Hj as Hj.
  rewrite (Hnth i x Hx), (Hnth j y Hy) in Hj. lia.
Qed.

(** The cursor keeps context 0 through every call. *)
Lemma step_cursor_context (c : call) (s : state) :
  context (_intern_chain s) = 0 →
  context (_intern_chain (step c s).2) = 0.
Proof.
  intros H. destruct c as [[e|]| |n]; simpl;
    unfold context_read, context_advance; simpl; try done.
  by destruct (serialize_allocator n s) as [-> _].
Qed.

Lemma run_cursor_context (cs : list call) (s : state) :
  context (_intern_chain s) = 0 →
  context (_intern_chain (run cs s).2) = 0
  ∧ ∀ c, c ∈ fresh_chains (run cs s).1 → context c = 0.
Proof.
  revert s. induction cs as [|c cs IH]; intros s H; simpl.
  - split; [done | intros c Hc; by apply elem_of_nil in Hc].
  - destruct (IH (step c s).2 (step_cursor_context c s H)) as [Hend Hall].
    split; [done|].
    destruct c as [[e|]| |n]; simpl in *; try done.
    intros c [->|Hc]%elem_of_cons; [done | by apply Hall].
Qed.

(** X20. When the calls are run one after the other, none starting
    before the one before it has returned, each call [chain()] returns the
    cursor as it stood before the call and leaves the cursor at
    [Chain(0, flow + 1)]; hence along any such history from a state whose
    cursor has flow [f0], the [N] calls [chain()] return the flows [f0],
    [f0 + 1], ... in order: [N] distinct values, all in the interval from
    [f0] up to but excluding [f0 + N]. *)
Theorem chain_fresh_flows (cs : list call) (s : state) :
  let f0 := flow (_intern_chain s) in
  let out := fresh_chains (run cs s).1 in
  let N := length (filter is_fresh_call cs) in
  (∀ s0, (chain None s0).1 = _intern_chain s0
         ∧ (chain None s0).2
           = set_intern_chain (mkChain 0 (flow (_intern_chain s0) + 1)) s0)
  ∧ length out = N
  ∧ (∀ (i : nat) c, out !! i = Some c → flow c = f0 + Z.of_nat i)
  ∧ NoDup (flow <$> out)
  ∧ (∀ c, c ∈ out → f0 ≤ flow c < f0 + Z.of_nat N).
Proof.
  intros f0 out N.
  destruct (run_fresh_chains cs s) as (Hlen & Hnth & _).
  fold out in Hlen, Hnth. fold N in Hlen.
  split_and!; [done | done | done | by eapply NoDup_fmap_arith |].
  intros c [i Hi]%list_elem_of_lookup.
  pose proof (lookup_lt_Some _ _ _ Hi) as Hlt.
  rewrite (Hnth i c Hi). unfold f0. lia.
Qed.

(** X21. When the calls are run one after the other, none starting
    before the one before it has returned, the [M] calls
    [new_context_chain()] of a history return [Chain(c0 + 1, 0)],
    [Chain(c0 + 2, 0)], ... in order, where [c0] is the context counter at
    the start: the contexts are distinct, each later one is greater than
    each earlier one, all are greater than every context handed out
    before, and every returned chain has flow 0. *)
Theorem new_context_chain_increasing (cs : list call) (s : state) :
  let c0 := _current_context s in
  let out := context_chains (run cs s).1 in
  let M := length (filter is_context_call cs) in
  length out = M
  ∧ (∀ (i : nat) c, out !! i = Some c → context c = c0 + 1 + Z.of_nat i)
  ∧ (∀ (i j : nat) ci cj, (i < j)%nat → out !! i = Some ci →
       out !! j = Some cj → context ci < context cj)
  ∧ NoDup (context <$> out)
  ∧ (∀ c, c ∈ out → c0 < context c ∧ flow c = 0).
Proof.
  intros c0 out M.
  destruct (run_context_chains cs s) as (Hlen & Hnth & _).
  fold out in Hlen, Hnth. fold M in Hlen. fold c0 in Hnth.
  assert (Hctx : ∀ (i : nat) c, out !! i = Some c →
                   context c = (c0 + 1) + Z.of_nat i).
  { intros i c Hi. by rewrite (Hnth i c Hi). }
  split_and!; [done | done | | by eapply NoDup_fmap_arith |].
  - intros i j ci cj Hij Hi Hj.
    rewrite (Hctx i ci Hi), (Hctx j cj Hj). lia.
  - intros c [i Hi]%list_elem_of_lookup.
    rewrite (Hnth i c Hi). simpl. lia.
Qed.

(** C8. For every event [e] and every state, [chain(e)] returns [e.chain]
    and leaves the cursor, the context counter and the rest of the class
    state as they were. *)
Theorem chain_of_event (e : event) (s : state) :
  (chain (Some e) s).1 = Event.chain (base e)
  ∧ (chain (Some e) s).2 = s
  ∧ _intern_chain (chain (Some e) s).2 = _intern_chain s
  ∧ _current_context (chain (Some e) s).2 = _current_context s.
Proof. by destruct e. Qed.

(** C10. After any history of calls from the initial class state the
    cursor has context 0, and every chain that a call [chain()] of the
    history returned has context 0, however many calls of
    [new_context_chain()] came before or in between. *)
Theorem cursor_context_zero (cs : list call) :
  context (_intern_chain (run cs initial).2) = 0
  ∧ (∀ c, c ∈ fresh_chains (run cs initial).1 → context c = 0)
  ∧ (chain None (run cs initial).2).1.(context) = 0.
Proof.
  destruct (run_cursor_context cs initial eq_refl) as [Hend Hall].
  split_and!; done.
Qed.

(** ** The registry *)

(** The loop inserts the registered entries one after the other. *)
Lemma foldl_scan_item (ns : list (string * attr)) (m : gmap string Cls.t) :
  foldl scan_item m ns
  = foldl (fun m p => <[p.1 := p.2]> m) m (registered ns).
Proof.
  revert m. induction ns as [|[n a] ns IH]; intros m; [done|].
  unfold registered. cbn [foldl omap list_omap]. fold (registered ns).
  unfold scan_item at 2. cbn [fst snd].
  destruct a as [c|]; [|apply IH].
  destruct (Cls.issubclass c Cls.Event); apply IH.
Qed.

Lemma foldl_insert_reverse (l : list (string * Cls.t)) :
  foldl (fun m p => <[p.1 := p.2]> m) ∅ (reverse l)
  = (list_to_map l : gmap string Cls.t).
Proof.
  induction l as [|[n c] l IH]; [done|].
  rewrite reverse_cons, foldl_app. cbn [foldl list_to_map foldr fst snd].
  by rewrite IH.
Qed.

Lemma registered_namespace :
  registered namespace = (fun c => (Cls.name c, c)) <$> event_classes.
Proof. vm_compute. reflexivity. Qed.

Lemma event_classes_names_NoDup : NoDup (Cls.name <$> event_classes).
Proof. apply (bool_decide_unpack _). vm_compute. exact I. Qed.

(** The table the scan builds from an empty one. *)
Lemma scan_empty :
  scan ∅ = list_to_map (reverse (registered namespace)).
Proof.
  unfold scan. rewrite foldl_scan_item.
  rewrite <- (reverse_involutive (registered namespace)) at 1.
  apply foldl_insert_reverse.
Qed.

Lemma scan_lookup (name : string) (c : Cls.t) :
  scan ∅ !! name = Some c ↔ c ∈ event_classes ∧ name = Cls.name c.
Proof.
  rewrite scan_empty, <- elem_of_list_to_map.
  - rewrite elem_of_reverse, registered_namespace, list_elem_of_fmap. split.
    + intros (c' & [= -> ->] & Hc). done.
    + intros [Hc ->]. by exists c.
  - rewrite fmap_reverse, reverse_Permutation.
    rewrite registered_namespace, <- list_fmap_compose.
    apply event_classes_names_NoDup.
Qed.

Lemma scan_nonempty : scan ∅ ≠ ∅.
Proof.
  intros H. assert (scan ∅ !! "Event" = Some Cls.Event) as Hl.
  { apply scan_lookup. split; [|done]. apply elem_of_cons. by left. }
  rewrite H in Hl. by rewrite lookup_empty in Hl.
Qed.

(** The table is empty until the first call of [serialize] and the scanned
    table from then on. *)
Lemma step_intern_map (c : call) (s : state) :
  _intern_map s = ∅ ∨ _intern_map s = scan ∅ →
  _intern_map (step c s).2 = ∅ ∨ _intern_map (step c s).2 = scan ∅.
Proof.
  intros H. destruct c as [[e|]| |n]; simpl;
    unfold context_read, context_advance; simpl; try done.
  unfold serialize. case_bool_decide as He.
  - rewrite He. right. by destruct (_ !! n).
  - destruct H as [H|H]; [done|]. right. by destruct (_ !! n).
Qed.

Lemma run_intern_map (cs : list call) (s : state) :
  _intern_map s = ∅ ∨ _intern_map s = scan ∅ →
  _intern_map (run cs s).2 = ∅ ∨ _intern_map (run cs s).2 = scan ∅.
Proof.
  revert s. induction cs as [|c cs IH]; intros s H; simpl; [done|].
  apply IH. by apply step_intern_map.
Qed.

(** [serialize] answers from the scanned table, whatever came before. *)
Lemma resolve_scan (cs : list call) (name : string) :
  resolve cs name =
    match scan ∅ !! name with
    | Some c => Ok c
    | None => Raise (mkExn ValueError ("Unknown event: " +:+ name))
    end.
Proof.
  unfold resolve, serialize.
  destruct (run_intern_map cs initial (or_introl eq_refl)) as [H|H].
  - rewrite bool_decide_eq_true_2 by done. rewrite H.
    cbn [set_intern_map _intern_map]. by destruct (scan ∅ !! name).
  - rewrite bool_decide_eq_false_2.
    + rewrite H. by destruct (scan ∅ !! name).
    + rewrite H. apply scan_nonempty.
Qed.

Lemma resolve_ok (cs : list call) (name : string) (c : Cls.t) :
  resolve cs name = Ok c ↔ c ∈ event_classes ∧ name = Cls.name c.
Proof.
  rewrite resolve_scan, <- scan_lookup.
  destruct (scan ∅ !! name); split; congruence.
Qed.

(** C1, as stated, fails: the base class is bound in the namespace of
    [SapphireEvents] and is a subclass of itself, so the name [Event]
    resolves although it is not one of the sixteen concrete event types. *)
Lemma concrete_names_not_exact :
  ¬ resolvable_exactly (Cls.name <$> concrete_events).
Proof.
  intros H. destruct (H [] "Event") as [Hin _].
  assert ("Event" ∉ (Cls.name <$> concrete_events)) as Hnot.
  { apply (bool_decide_unpack _). vm_compute. exact I. }
  apply Hnot, Hin. exists Cls.Event. vm_compute. reflexivity.
Qed.

(** C1, amended. After any history of calls, [serialize] resolves exactly
    the names of the sixteen concrete event types and the name of the base
    class [Event]: each of these names resolves to the class of that name,
    and no other name (in particular not [Chain]) resolves. *)
Theorem serialize_resolves_event_classes :
  resolvable_exactly ("Event" :: (Cls.name <$> concrete_events))
  ∧ (∀ cs c, c ∈ event_classes → resolve cs (Cls.name c) = Ok c)
  ∧ (∀ cs name c, resolve cs name = Ok c →
       name = Cls.name c ∧ Cls.issubclass c Cls.Event = true)
  ∧ (∀ cs, ∃ e, resolve cs "Chain" = Raise e).
Proof.
  split_and!.
  - intros cs name. split.
    + intros (c & [Hc ->]%resolve_ok).
      change (Cls.name c ∈ (Cls.name <$> event_classes)).
      apply list_elem_of_fmap. by exists c.
    + change (name ∈ (Cls.name <$> event_classes) → ∃ c, resolve cs name = Ok c).
      intros (c & -> & Hc)%list_elem_of_fmap.
      exists c. by apply resolve_ok.
  - intros cs c Hc. by apply resolve_ok.
  - intros cs name c [Hc ->]%resolve_ok. split; [done|].
    revert Hc. unfold event_classes, concrete_events.
    rewrite !elem_of_cons, elem_of_nil.
    intros H. repeat (destruct H as [->|H]; [reflexivity|]). done.
  - intros cs. rewrite resolve_scan. eexists. vm_compute. reflexivity.
Qed.

(** C2, as stated, fails: the exception [serialize] raises for an unknown
    name is a [ValueError], and [ValueError] does not derive from
    [LookupError]. *)
Lemma unknown_name_not_LookupError :
  ¬ unknown_raises (Cls.name <$> event_classes) LookupError.
Proof.
  intros H. destruct (H [] "NotARealEvent") as (e & He & Hi).
  - apply (bool_decide_unpack _). vm_compute. exact I.
  - rewrite resolve_scan in He.
    destruct (scan ∅ !! "NotARealEvent") as [c|]; [done|].
    injection He as <-. vm_compute in Hi. done.
Qed.

(** C2, amended. After any history of calls, for every name that is not
    the name of an event class, [serialize] raises
    [ValueError("Unknown event: <name>")]; this exception is an instance of
    [ValueError] and of [Exception], and not of [LookupError]. *)
Theorem serialize_unknown_raises_ValueError (cs : list call) (name : string) :
  name ∉ (Cls.name <$> event_classes) →
  (let e := mkExn ValueError ("Unknown event: " +:+ name) in
   resolve cs name = Raise e
   ∧ exn_isinstance e ValueError = true
   ∧ exn_isinstance e Exception = true
   ∧ exn_isinstance e LookupError = false).
Proof.
  intros Hname e. split; [|done].
  rewrite resolve_scan. destruct (scan ∅ !! name) as [c|] eqn:Hc; [|done].
  apply scan_lookup in Hc as [Hc ->]. destruct Hname.
  apply list_elem_of_fmap. by exists c.
Qed.

Lemma serialize_unknown_raises_ValueError_witness :
  ("NotARealEvent" ∉ (Cls.name <$> event_classes))
  ∧ resolve [] "NotARealEvent"
    = Raise (mkExn ValueError "Unknown event: NotARealEvent").
Proof.
  assert ("NotARealEvent" ∉ (Cls.name <$> event_classes)) as Hname.
  { apply (bool_decide_unpack _). vm_compute. exact I. }
  split; [exact Hname|].
  exact (proj1 (serialize_unknown_raises_ValueError [] "NotARealEvent" Hname)).
Defined.

(** ** The event classes *)

(** C9. In [ErrorEvent] the name [message] is an attribute of the class,
    bound to the type object [str], and no field: the fields are [sender],
    [timestamp], [chain] and [error]; the constructor accepts exactly four
    arguments; the instance it builds holds these four attributes and no
    [message] of its own, and reading [message] from the instance yields the
    type object [str] of the class. *)
Theorem ErrorEvent_message_not_a_field :
  (Cls.fields Cls.ErrorEvent).*1 = ["sender"; "timestamp"; "chain"; "error"]
  ∧ Cls.class_attr Cls.ErrorEvent "message" = Some (OType "str")
  ∧ (∀ args, (∃ d, Cls.init Cls.ErrorEvent args = Ok d) ↔ length args = 4%nat)
  ∧ (∀ s t c e, ∃ d,
       Cls.init Cls.ErrorEvent [s; t; c; e] = Ok d
       ∧ dom d = list_to_set ["sender"; "timestamp"; "chain"; "error"]
       ∧ d !! "sender" = Some s ∧ d !! "timestamp" = Some t
       ∧ d !! "chain" = Some c ∧ d !! "error" = Some e
       ∧ d !! "message" = None
       ∧ Cls.getattr Cls.ErrorEvent d "message" = Ok (OType "str")).
Proof.
  split_and!.
  - reflexivity.
  - reflexivity.
  - intros args. unfold Cls.init.
    change (Cls.fields Cls.ErrorEvent)
      with [("sender", @None pyobj); ("timestamp", None); ("chain", None);
            ("error", None)].
    destruct args as [|a1 [|a2 [|a3 [|a4 [|a5 args]]]]];
      cbn [Cls.bind_args length]; split;
      try (intros [d Hd]; discriminate Hd); try (intros H; discriminate H);
      try (intros _; eexists; reflexivity); try done.
  - intros s t c e.
    exists (<["sender" := s]> (<["timestamp" := t]>
             (<["chain" := c]> (<["error" := e]> ∅)))).
    assert (Hmsg : (<["sender" := s]> (<["timestamp" := t]>
             (<["chain" := c]> (<["error" := e]> (∅ : gmap string pyobj)))))
             !! "message" = None).
    { by rewrite !lookup_insert_ne, lookup_empty. }
    split_and!.
    + reflexivity.
    + rewrite !dom_insert_L, dom_empty_L. set_solver.
    + by simplify_map_eq.
    + by simplify_map_eq.
    + by simplify_map_eq.
    + by simplify_map_eq.
    + exact Hmsg.
    + unfold Cls.getattr. by rewrite Hmsg.
Qed.

(** ** The logger *)

Lemma LEVELS_lookup (level : string) (r : Z) :
  LEVELS !! level = Some r ↔
  (level, r) ∈ [("debug", 0); ("info", 1); ("warning", 2); ("critical", 3)].
Proof.
  unfold LEVELS. rewrite <- elem_of_list_to_map; [done|].
  apply (bool_decide_unpack _). vm_compute. exact I.
Qed.

Lemma level_map_lookup (level : string) (r : Z) :
  LEVELS !! level = Some r → is_Some (Color.level_map !! level).
Proof.
  rewrite LEVELS_lookup, !elem_of_cons, elem_of_nil.
  intros [[= -> _]|[[= -> _]|[[= -> _]|[[= -> _]|[]]]]]; by eexists.
Qed.

Lemma append_nonempty (s t : string) : s +:+ t = s → t = "".
Proof.
  induction s as [|a s IH]; simpl; [done|]. intros [= H]. by apply IH.
Qed.

(** Running the logger's methods on a given instance and world: unfold the
    methods and the plumbing, then compute, leaving dictionary lookups and
    string concatenations as they are written. *)
Ltac logger_unfold :=
  unfold Logger.start, Logger.handle, Logger.file_log, Logger.terminal_log,
    Logger.log, Logger.emit_event, Logger.fresh_chain, Logger.config_get,
    Logger.LEVELS_getitem, Logger.in_LEVELS, Logger.append_file,
    Logger.print, Logger.set_log_file, Logger.set_log_level,
    Logger.set_to_terminal, Logger.__init__, Logger.name, getitem,
    attribute, gets, modify, raise, mbind, mret, M_bind, M_ret.

Ltac logger_step :=
  cbn -[LEVELS Color.level_map lookup String.append insert
        make_timestamp upper capitalize Logger.open_error].

(** C7. When the configured level is a string that is none of [debug],
    [info], [warning], [critical] (and [logfile], when configured, is a
    string), [start] on a fresh logger returns normally; afterwards the
    level in effect is [info]; and [start] emitted two log events, in
    order: the [info] event that names the log file and one [warning]
    event whose message names the rejected level and the fallback to
    [info]. Nothing is written to the file or the terminal. *)
Theorem start_invalid_level (abspath : string → string)
    (cfg : gmap string value) (w : Logger.world) (lv : string) :
  cfg !! "level" = Some (VStr lv) →
  LEVELS !! lv = None →
  (∀ v, cfg !! "logfile" = Some v → ∃ p, v = VStr p) →
  let r := Logger.start abspath (Logger.__init__ cfg, w) in
  let path :=
    match cfg !! "logfile" with
    | Some (VStr p) => p
    | _ => "sapphire.log"
    end in
  let cursor := _intern_chain (Logger.events w) in
  let stamp := make_timestamp (Logger.now w) in
  let info :=
    LogEvent (Event.mk "logger" stamp cursor) "info"
      ("Now logging into file: " +:+ abspath path) in
  let warning :=
    LogEvent (Event.mk "logger" stamp (mkChain 0 (flow cursor + 1)))
      "warning"
      ("Invalid log level specified in config.toml '" +:+ lv
       +:+ "'. Defaulting to 'info'") in
  r.1 = Ok tt
  ∧ Logger.log_level r.2.1 = Some (VStr "info")
  ∧ Logger.log_file r.2.1 = Some path
  ∧ Logger.to_terminal r.2.1
    = Some (default (VBool true) (cfg !! "terminal"))
  ∧ Logger.emitted r.2.2 = (Logger.emitted w ++ [info; warning])%list
  ∧ filter is_warning_log [info; warning] = [warning]
  ∧ Logger.files r.2.2 = Logger.files w
  ∧ Logger.stdout r.2.2 = Logger.stdout w.
Proof.
  intros Hlevel Hunknown Hlogfile r path cursor stamp info warning.
  assert (Hpath : default (VStr "sapphire.log") (cfg !! "logfile")
                  = VStr path).
  { subst path. destruct (cfg !! "logfile") as [v|] eqn:Hv; [|done].
    destruct (Hlogfile v eq_refl) as [p ->]. done. }
  subst r. logger_unfold. logger_step.
  rewrite Hpath. logger_step. rewrite Hlevel. logger_step.
  rewrite Hunknown. logger_step.
  rewrite <- app_assoc. done.
Qed.

Lemma start_invalid_level_witness :
  (<["level" := VStr "verbose"]> ∅ : gmap string value) !! "level"
  = Some (VStr "verbose")
  ∧ LEVELS !! "verbose" = None
  ∧ Logger.log_level
      (Logger.start (fun p => "/srv/" +:+ p)
         (Logger.__init__ (<["level" := VStr "verbose"]> ∅),
          sample_world)).2.1
    = Some (VStr "info").
Proof.
  split; [reflexivity|]. split; [reflexivity|].
  refine (proj1 (proj2
    (start_invalid_level (fun p => "/srv/" +:+ p)
       (<["level" := VStr "verbose"]> ∅) sample_world "verbose"
       eq_refl eq_refl _))).
  intros v Hv. discriminate Hv.
Defined.

(** What [start] leaves behind, whatever level is configured: when
    [logfile] is absent or a string, [start] returns normally with the three
    attributes assigned and a level in effect that [LEVELS] knows. These are
    the assumptions under which [handle] and [file_log] are studied. *)
Lemma start_sets_attributes (abspath : string → string)
    (cfg : gmap string value) (w : Logger.world) :
  (∀ v, cfg !! "logfile" = Some v → ∃ p, v = VStr p) →
  let r := Logger.start abspath (Logger.__init__ cfg, w) in
  r.1 = Ok tt
  ∧ is_Some (Logger.log_file r.2.1)
  ∧ is_Some (Logger.to_terminal r.2.1)
  ∧ ∃ l rank, Logger.log_level r.2.1 = Some (VStr l)
              ∧ LEVELS !! l = Some rank.
Proof.
  intros Hlogfile r.
  assert (Hpath : ∃ path, default (VStr "sapphire.log") (cfg !! "logfile")
                          = VStr path).
  { destruct (cfg !! "logfile") as [v|] eqn:Hv; [|by eexists].
    destruct (Hlogfile v eq_refl) as [p ->]. by eexists. }
  destruct Hpath as [path Hpath].
  assert (Hinfo : LEVELS !! "info" = Some 1) by reflexivity.
  subst r. logger_unfold. logger_step. rewrite Hpath. logger_step.
  destruct (default (VStr "info") (cfg !! "level")) as [l|z|flag] eqn:Hl;
    logger_step.
  - destruct (LEVELS !! l) as [rank|] eqn:Hrank; logger_step.
    + split_and!; try done. by exists l, rank.
    + split_and!; try done. by exists "info", 1.
  - split_and!; try done. by exists "info", 1.
  - split_and!; try done. by exists "info", 1.
Qed.

(** [str.capitalize] lower-cases what follows the first character. *)
Remark capitalize_lowers_the_rest : capitalize "myModule" = "Mymodule".
Proof. reflexivity. Qed.

(** A time of day within range is stamped as eight characters. *)
Remark make_timestamp_sample : make_timestamp (mkTime 9 5 33) = "09:05:33".
Proof. reflexivity. Qed.

(** The read of the cursor in [chain] is made before the lock is taken: two
    callers that both read before either writes hold the same chain, and
    the cursor then advances once. *)
Remark chain_reads_before_lock (s : state) :
  let c1 := chain_read s in
  let c2 := chain_read s in
  c1 = c2
  ∧ flow (_intern_chain (chain_write c2 (chain_write c1 s)))
    = flow (_intern_chain s) + 1.
Proof. done. Qed.

(** * Further properties *)

Local Close Scope string_scope.

(** ** The allocator, continued *)

Lemma run_allocated_chains (cs : list call) (s : state) :
  context (_intern_chain s) = 0 →
  (0 ≤ _current_context s)%Z →
  NoDup (allocated_chains (run cs s).1)
  ∧ ∀ c, c ∈ allocated_chains (run cs s).1 →
      (context c = 0 ∧ (flow (_intern_chain s) ≤ flow c)%Z)
      ∨ (_current_context s < context c)%Z.
Proof.
  revert s. induction cs as [|c cs IH]; intros s Hctx Hcount; simpl.
  - split; [constructor | intros c Hc; by apply elem_of_nil in Hc].
  - destruct c as [[e|]| |n]; simpl;
      unfold context_read, context_advance; simpl.
    + by apply IH.
    + destruct (IH (chain_write (chain_read s) s)) as [Hnodup Hall];
        [done | done |].
      unfold chain_read in *. simpl in Hall. split.
      * constructor; [|done]. intros Hin.
        destruct (Hall _ Hin) as [[_ Hflow]|Hc]; lia.
      * intros c [->|Hc]%elem_of_cons; [left; lia|].
        destruct (Hall c Hc) as [[? ?]|?]; [left; lia | by right].
    + destruct (IH (set_current_context (_current_context s + 1) s))
        as [Hnodup Hall]; [done | simpl; lia |].
      simpl in Hall. split.
      * constructor; [|done]. intros Hin.
        destruct (Hall _ Hin) as [[Hc _]|Hc]; simpl in Hc; lia.
      * intros c [->|Hc]%elem_of_cons; [right; simpl; lia|].
        destruct (Hall c Hc) as [[? ?]|?]; [by left | right; lia].
    + destruct (serialize_allocator n s) as [Hc Hk].
      destruct (IH (serialize n s).2) as [Hnodup Hall];
        [by rewrite Hc | by rewrite Hk |].
      rewrite Hc, Hk in Hall. done.
Qed.

(** X1. When the calls are run one after the other, none starting before
    the one before it has returned, then from the initial class state no
    chain is handed out twice: the chains returned by [chain()] and by
    [new_context_chain()], taken together, are pairwise different. *)
Theorem allocated_chains_distinct (cs : list call) :
  NoDup (allocated_chains (run cs initial).1)
  ∧ (∀ a b, a ∈ fresh_chains (run cs initial).1 →
       b ∈ context_chains (run cs initial).1 → a ≠ b).
Proof.
  split.
  - by apply run_allocated_chains.
  - intros a b Ha Hb ->.
    destruct (run_cursor_context cs initial eq_refl) as [_ Hzero].
    destruct (run_context_chains cs initial) as (_ & Hnth & _).
    specialize (Hzero b Ha).
    apply list_elem_of_lookup in Hb as [i Hi].
    rewrite (Hnth i b Hi) in Hzero. simpl in Hzero. lia.
Qed.

(** X2. When the calls are run one after the other, none starting before
    the one before it has returned, then from the initial class state the
    cursor counts the chains handed out by [chain()] and the context
    counter counts the calls of [new_context_chain()]; calls of [chain(e)]
    and of [serialize] move neither. *)
Theorem allocator_counts_calls (cs : list call) :
  _intern_chain (run cs initial).2
  = mkChain 0 (Z.of_nat (length (filter is_fresh_call cs)))
  ∧ _current_context (run cs initial).2
    = Z.of_nat (length (filter is_context_call cs)).
Proof.
  destruct (run_fresh_chains cs initial) as (Hlen & _ & Hflow).
  destruct (run_context_chains cs initial) as (Hlen' & _ & Hcount).
  destruct (run_cursor_context cs initial eq_refl) as [Hctx _].
  rewrite Hlen in Hflow. rewrite Hlen' in Hcount. split; [|done].
  destruct (_intern_chain (run cs initial).2) as [c f].
  simpl in *. by subst.
Qed.

(** ** The registry, continued *)

Lemma run_intern_map_lazy (cs : list call) (s : state) :
  _intern_map s = ∅ ∨ _intern_map s = scan ∅ →
  _intern_map (run cs s).2
  = if existsb is_serialize_call cs then scan ∅ else _intern_map s.
Proof.
  revert s. induction cs as [|c cs IH]; intros s H; [done|].
  cbn [run existsb snd]. rewrite IH by by apply step_intern_map.
  destruct c as [[e|]| |n]; cbn [is_serialize_call orb step snd fst];
    try done.
  assert (_intern_map (serialize n s).2 = scan ∅) as ->.
  { unfold serialize. case_bool_decide as He.
    - rewrite He. by destruct (_ !! n).
    - destruct H as [H|H]; [done|]. by destruct (_ !! n). }
  by destruct (existsb is_serialize_call cs).
Qed.

(** X3. The table of [serialize] is built on the first call, found or not,
    and only then: after a history from the initial class state it is empty
    when no call of [serialize] was made and the scanned table otherwise. *)
Theorem intern_map_built_lazily (cs : list call) :
  _intern_map (run cs initial).2
  = if existsb is_serialize_call cs then scan ∅ else ∅.
Proof. apply run_intern_map_lazy. by left. Qed.

(** X4. Once [serialize] has been called, a further call changes nothing:
    the table holds the seventeen event class names, each call answers from
    it and leaves the whole class state, allocator included, as it is. *)
Theorem serialize_table_stable (cs : list call) (n m : string) :
  let s := (run cs initial).2 in
  let s1 := (serialize n s).2 in
  dom (_intern_map s1) = list_to_set (Cls.name <$> event_classes)
  ∧ (serialize m s1).2 = s1
  ∧ (serialize m s1).1 = resolve cs m
  ∧ _intern_chain s1 = _intern_chain s
  ∧ _current_context s1 = _current_context s.
Proof.
  intros s s1.
  assert (Hmap : _intern_map s1 = scan ∅).
  { change s1 with (run [Call_serialize n] s).2.
    rewrite run_intern_map_lazy; [done|].
    apply run_intern_map. by left. }
  assert (Hserialize : ∀ k, serialize k s1
    = (match scan ∅ !! k with
       | Some c => Ok c
       | None => Raise (mkExn ValueError ("Unknown event: " +:+ k))
       end, s1)).
  { intros k. unfold serialize.
    rewrite bool_decide_eq_false_2 by (rewrite Hmap; apply scan_nonempty).
    rewrite Hmap. by destruct (scan ∅ !! k). }
  split_and!.
  - rewrite Hmap. apply set_eq. intros x.
    rewrite elem_of_dom, elem_of_list_to_set, list_elem_of_fmap. split.
    + intros [c [Hc ->]%scan_lookup]. by exists c.
    + intros (c & -> & Hc). exists c. by apply scan_lookup.
  - by rewrite Hserialize.
  - by rewrite Hserialize, resolve_scan.
  - apply serialize_allocator.
  - apply serialize_allocator.
Qed.

(** ** Timestamps and the text of a chain *)

Lemma append_cons (c : ascii) (s t : string) :
  String c s +:+ t = String c (s +:+ t).
Proof. reflexivity. Qed.

Lemma append_nil (t : string) : "" +:+ t = t.
Proof. reflexivity. Qed.

Lemma append_assoc (s t u : string) : (s +:+ t) +:+ u = s +:+ (t +:+ u).
Proof.
  induction s as [|c s IH]; [done|]. by rewrite !append_cons, IH.
Qed.

Lemma chars_append (s t : string) : chars (s +:+ t) = chars s ++ chars t.
Proof.
  induction s as [|c s IH]; [done|]. rewrite append_cons. simpl. by rewrite IH.
Qed.

Lemma two_digits_spec (n : Z) :
  0 ≤ n < 100 →
  two_digits n
  = String (digit_char (n / 10)) (String (digit_char (n mod 10)) "").
Proof.
  intros Hn.
  assert (Forall (fun k : nat =>
            two_digits (Z.of_nat k)
            = String (digit_char (Z.of_nat k / 10))
                (String (digit_char (Z.of_nat k mod 10)) ""))
          (seq 0 100)) as Hall.
  { apply (bool_decide_unpack _). vm_compute. exact I. }
  rewrite Forall_forall in Hall.
  rewrite <- (Z2Nat.id n) by lia. apply Hall, elem_of_seq. lia.
Qed.

Lemma digit_char_inj (j k : Z) :
  0 ≤ j < 10 → 0 ≤ k < 10 → digit_char j = digit_char k → j = k.
Proof.
  intros Hj Hk H. apply (f_equal nat_of_ascii) in H. unfold digit_char in H.
  rewrite !nat_ascii_embedding in H by lia. lia.
Qed.

Lemma two_digits_inj (j k : Z) :
  0 ≤ j < 100 → 0 ≤ k < 100 → two_digits j = two_digits k → j = k.
Proof.
  intros Hj Hk. rewrite !two_digits_spec by done. intros [= Hq Hr].
  apply digit_char_inj in Hq;
    [| split; [apply Z.div_pos | apply Z.div_lt_upper_bound]; lia
     | split; [apply Z.div_pos | apply Z.div_lt_upper_bound]; lia].
  apply digit_char_inj in Hr; [| apply Z.mod_pos_bound; lia..].
  rewrite (Z.div_mod j 10), (Z.div_mod k 10) by lia. lia.
Qed.

(** X5. For a time of day, [make_timestamp] gives eight characters: two
    decimal digits each for the hour, the minute and the second, zero
    padded, with a colon after the hour and after the minute. *)
Theorem make_timestamp_format (t : datetime) :
  valid_time t →
  chars (make_timestamp t)
  = [digit_char (hour t / 10); digit_char (hour t mod 10); ":"%char;
     digit_char (minute t / 10); digit_char (minute t mod 10); ":"%char;
     digit_char (second t / 10); digit_char (second t mod 10)].
Proof.
  intros (Hh & Hm & Hs). unfold make_timestamp, strftime_HMS.
  rewrite !two_digits_spec by lia. reflexivity.
Qed.

Lemma make_timestamp_format_witness :
  valid_time (mkTime 23 59 7)
  ∧ chars (make_timestamp (mkTime 23 59 7)) = chars "23:59:07".
Proof.
  assert (valid_time (mkTime 23 59 7)) as Hvalid.
  { unfold valid_time. simpl. lia. }
  split; [exact Hvalid|].
  exact (make_timestamp_format (mkTime 23 59 7) Hvalid).
Defined.

(** X6. Two different times of day never get the same timestamp. *)
Theorem make_timestamp_injective (t1 t2 : datetime) :
  valid_time t1 → valid_time t2 →
  make_timestamp t1 = make_timestamp t2 → t1 = t2.
Proof.
  intros (Hh1 & Hm1 & Hs1) (Hh2 & Hm2 & Hs2).
  unfold make_timestamp, strftime_HMS.
  rewrite !(two_digits_spec (hour _)), !(two_digits_spec (minute _)) by lia.
  rewrite !append_cons, !append_nil. intros [= Ha Hb Hc Hd Hrest].
  destruct t1 as [h1 m1 s1], t2 as [h2 m2 s2]. simpl in *.
  assert (h1 = h2) as ->.
  { apply two_digits_inj; [lia..|]. rewrite !two_digits_spec by lia.
    by rewrite Ha, Hb. }
  assert (m1 = m2) as ->.
  { apply two_digits_inj; [lia..|]. rewrite !two_digits_spec by lia.
    by rewrite Hc, Hd. }
  assert (s1 = s2) as ->; [|done].
  apply two_digits_inj; [lia..|done].
Qed.

Lemma make_timestamp_injective_witness :
  valid_time (mkTime 9 5 33) ∧ valid_time (mkTime 9 5 33)
  ∧ mkTime 9 5 33 = mkTime 9 5 33.
Proof.
  assert (valid_time (mkTime 9 5 33)) as Hvalid.
  { unfold valid_time. simpl. lia. }
  split; [exact Hvalid|]. split; [exact Hvalid|].
  exact (make_timestamp_injective (mkTime 9 5 33) (mkTime 9 5 33)
           Hvalid Hvalid eq_refl).
Defined.

Lemma to_int_proper (z : Z) :
  Z.to_int z ≠ Decimal.Pos Decimal.Nil ∧ Z.to_int z ≠ Decimal.Neg Decimal.Nil.
Proof.
  destruct z as [|p|p]; simpl; split; try done;
    intros [= H]; by apply DecimalPos.Unsigned.to_uint_nonnil in H.
Qed.

Lemma str_of_int_inj (a b : Z) : str_of_int a = str_of_int b → a = b.
Proof.
  unfold str_of_int. intros H.
  apply (f_equal NilZero.int_of_string) in H.
  destruct (to_int_proper a), (to_int_proper b).
  rewrite !NilZero.isi in H by done. injection H as H.
  apply (f_equal Z.of_int) in H. by rewrite !DecimalZ.of_to in H.
Qed.

Lemma string_of_uint_chars (d : Decimal.uint) (c : ascii) :
  c ∈ chars (NilEmpty.string_of_uint d) → c ∈ chars "0123456789".
Proof.
  induction d as [|d IH|d IH|d IH|d IH|d IH|d IH|d IH|d IH|d IH|d IH];
    simpl; [by intros ?%elem_of_nil|..];
    (intros [->|Hc]%elem_of_cons; [|by apply IH]);
    apply (bool_decide_unpack _); vm_compute; exact I.
Qed.

Lemma str_of_int_chars (z : Z) (c : ascii) :
  c ∈ chars (str_of_int z) → c ∈ chars "-0123456789".
Proof.
  assert (Hu : ∀ d, c ∈ chars (NilZero.string_of_uint d) →
                    c ∈ chars "-0123456789").
  { intros d Hc. apply elem_of_cons. right.
    destruct d; try by apply (string_of_uint_chars _ c Hc).
    simpl in Hc. apply list_elem_of_singleton in Hc as ->.
    apply (bool_decide_unpack _). vm_compute. exact I. }
  unfold str_of_int, NilZero.string_of_int.
  destruct (Z.to_int z) as [d|d]; [apply (Hu d)|].
  simpl. intros [->|Hc]%elem_of_cons; [|by apply (Hu d)].
  apply elem_of_cons. by left.
Qed.

(** Two texts that continue after the same separator, which neither holds,
    are split at the same place. *)
Lemma append_separator_inj (sep : ascii) (a1 a2 r1 r2 : string) :
  sep ∉ chars a1 → sep ∉ chars a2 →
  a1 +:+ String sep r1 = a2 +:+ String sep r2 → a1 = a2 ∧ r1 = r2.
Proof.
  revert a2. induction a1 as [|c a1 IH]; intros [|c2 a2] H1 H2;
    rewrite ?append_cons, ?append_nil; intros E; simplify_eq.
  - done.
  - destruct H2. simpl. apply elem_of_cons. by left.
  - destruct H1. simpl. apply elem_of_cons. by left.
  - destruct (IH a2) as [-> ->]; [| |done|done].
    + intros Hin. apply H1. simpl. apply elem_of_cons. by right.
    + intros Hin. apply H2. simpl. apply elem_of_cons. by right.
Qed.

(** X7. [Chain.__str__] tells chains apart: two chains have the same text
    exactly when they have the same context and the same flow. *)
Theorem Chain_str_injective (c1 c2 : Chain) :
  Chain_str c1 = Chain_str c2 ↔ c1 = c2.
Proof.
  split; [|by intros ->].
  assert (Hsep : ∀ z (sep : ascii), sep ∉ chars "-0123456789" →
                   sep ∉ chars (str_of_int z)).
  { intros z sep Hsep Hin. by apply Hsep, (str_of_int_chars z). }
  assert (Hcolon : ":"%char ∉ chars "-0123456789").
  { apply (bool_decide_unpack _). vm_compute. exact I. }
  assert (Hparen : ")"%char ∉ chars "-0123456789").
  { apply (bool_decide_unpack _). vm_compute. exact I. }
  destruct c1 as [k1 f1], c2 as [k2 f2]. unfold Chain_str. simpl.
  rewrite !append_cons, !append_nil. intros [= H].
  apply append_separator_inj in H as [Hk H]; [|by apply Hsep..].
  apply append_separator_inj in H as [Hf _]; [|by apply Hsep..].
  by rewrite (str_of_int_inj _ _ Hk), (str_of_int_inj _ _ Hf).
Qed.

(** ** The logger, continued *)

(** [handle] does nothing for an event that is not a log event, a
    [UserInputEvent] included although [handled_events] lists it: it
    returns normally and changes neither the logger nor the world, started
    or not. *)
Theorem handle_ignores_other_events (self : Logger.t) (w : Logger.world)
    (e : event) :
  class_of e ≠ Cls.LogEvent →
  Logger.handle e (self, w) = (Ok tt, (self, w)).
Proof. intros He. by destruct e. Qed.

Lemma handle_ignores_other_events_witness :
  class_of (UserInputEvent sample_base "hello") ≠ Cls.LogEvent
  ∧ Cls.UserInputEvent ∈ Logger.handled_events
  ∧ Logger.handle (UserInputEvent sample_base "hello")
      (sample_logger, sample_world)
    = (Ok tt, (sample_logger, sample_world)).
Proof.
  assert (class_of (UserInputEvent sample_base "hello") ≠ Cls.LogEvent)
    as Hclass by discriminate.
  split; [exact Hclass|]. split.
  - apply elem_of_cons. right. apply elem_of_cons. left. reflexivity.
  - exact (handle_ignores_other_events sample_logger sample_world
             (UserInputEvent sample_base "hello") Hclass).
Defined.

(** X8. A log event whose level is not a key of [LEVELS] makes [handle]
    raise [KeyError] with that level, before anything is written or
    printed, whatever the state of the logger. *)
Theorem handle_unknown_level (self : Logger.t) (w : Logger.world)
    (b : Event.t) (level message : string) :
  LEVELS !! level = None →
  Logger.handle (LogEvent b level message) (self, w)
  = (Raise (mkExn KeyError level), (self, w)).
Proof.
  intros Hlevel. logger_unfold. logger_step. by rewrite Hlevel.
Qed.

Lemma handle_unknown_level_witness :
  LEVELS !! "trace" = None
  ∧ Logger.handle (LogEvent sample_base "trace" "x")
      (sample_logger, sample_world)
    = (Raise (mkExn KeyError "trace"), (sample_logger, sample_world)).
Proof.
  split; [reflexivity|].
  exact (handle_unknown_level sample_logger sample_world sample_base
           "trace" "x" eq_refl).
Defined.

(** X9. On a logger that was not started, a log event of a known level
    makes [handle] raise [AttributeError] for [log_level]; nothing is
    written or printed. *)
Theorem handle_before_start (cfg : gmap string value) (w : Logger.world)
    (b : Event.t) (level message : string) :
  is_Some (LEVELS !! level) →
  Logger.handle (LogEvent b level message) (Logger.__init__ cfg, w)
  = (Raise (mkExn AttributeError "log_level"), (Logger.__init__ cfg, w)).
Proof.
  intros [rank Hrank]. logger_unfold. logger_step. by rewrite Hrank.
Qed.

Lemma handle_before_start_witness :
  is_Some (LEVELS !! "critical")
  ∧ Logger.handle (LogEvent sample_base "critical" "boom")
      (Logger.__init__ ∅, sample_world)
    = (Raise (mkExn AttributeError "log_level"),
       (Logger.__init__ ∅, sample_world)).
Proof.
  assert (is_Some (LEVELS !! "critical")) as Hlevel.
  { exists 3. reflexivity. }
  split; [exact Hlevel|].
  exact (handle_before_start ∅ sample_world sample_base "critical" "boom"
           Hlevel).
Defined.


(** X11. When [logfile] is configured with a value that is not a string,
    [start] raises [AttributeError] for [log_file]: by then it has taken
    one chain from the allocator, and it has emitted nothing and assigned
    no attribute. *)
Theorem start_logfile_not_a_string (abspath : string → string)
    (cfg : gmap string value) (w : Logger.world) (v : value) :
  cfg !! "logfile" = Some v →
  (∀ p, v ≠ VStr p) →
  Logger.start abspath (Logger.__init__ cfg, w)
  = (Raise (mkExn AttributeError "log_file"),
     (Logger.__init__ cfg,
      {| Logger.events := (chain None (Logger.events w)).2;
         Logger.now := Logger.now w;
         Logger.refused := Logger.refused w;
         Logger.files := Logger.files w;
         Logger.stdout := Logger.stdout w;
         Logger.emitted := Logger.emitted w |})).
Proof.
  intros Hv Hnot. logger_unfold. logger_step. rewrite Hv. logger_step.
  destruct v as [p|z|flag]; [by destruct (Hnot p) | done | done].
Qed.

Lemma start_logfile_not_a_string_witness :
  (<["logfile" := VInt 3]> ∅ : gmap string value) !! "logfile"
  = Some (VInt 3)
  ∧ (∀ p, VInt 3 ≠ VStr p)
  ∧ (Logger.start (fun p => "/srv/" +:+ p)
       (Logger.__init__ (<["logfile" := VInt 3]> ∅), sample_world)).1
    = Raise (mkExn AttributeError "log_file").
Proof.
  assert (∀ p, VInt 3 ≠ VStr p) as Hnot by (intros p; discriminate).
  split; [reflexivity|]. split; [exact Hnot|].
  exact (f_equal fst
    (start_logfile_not_a_string (fun p => "/srv/" +:+ p)
       (<["logfile" := VInt 3]> ∅) sample_world (VInt 3) eq_refl Hnot)).
Defined.

(** X12. When the configured level (or [info] when none is configured) is
    a key of [LEVELS] and [logfile] is a string or absent, [start] returns
    normally, keeps that level, takes [sapphire.log] and [True] as the
    defaults of [logfile] and [terminal], emits the single [info] event that
    names the log file and no warning, takes one chain from the allocator,
    and writes and prints nothing. *)
Theorem start_known_level (abspath : string → string)
    (cfg : gmap string value) (w : Logger.world) :
  Logger.in_LEVELS (default (VStr "info") (cfg !! "level")) = true →
  (∀ v, cfg !! "logfile" = Some v → ∃ p, v = VStr p) →
  let r := Logger.start abspath (Logger.__init__ cfg, w) in
  let path :=
    match cfg !! "logfile" with
    | Some (VStr p) => p
    | _ => "sapphire.log"
    end in
  r.1 = Ok tt
  ∧ r.2.1
    = {| Logger.config := cfg;
         Logger.log_file := Some path;
         Logger.log_level := Some (default (VStr "info") (cfg !! "level"));
         Logger.to_terminal :=
           Some (default (VBool true) (cfg !! "terminal")) |}
  ∧ r.2.2
    = {| Logger.events := (chain None (Logger.events w)).2;
         Logger.now := Logger.now w;
         Logger.refused := Logger.refused w;
         Logger.files := Logger.files w;
         Logger.stdout := Logger.stdout w;
         Logger.emitted :=
           Logger.emitted w
           ++ [LogEvent
                 (Event.mk "logger" (make_timestamp (Logger.now w))
                    (_intern_chain (Logger.events w)))
                 "info" ("Now logging into file: " +:+ abspath path)] |}.
Proof.
  intros Hlevel Hlogfile r path.
  assert (Hpath : default (VStr "sapphire.log") (cfg !! "logfile")
                  = VStr path).
  { subst path. destruct (cfg !! "logfile") as [v|] eqn:Hv; [|done].
    destruct (Hlogfile v eq_refl) as [p ->]. done. }
  subst r. logger_unfold. logger_step. rewrite Hpath. logger_step.
  unfold Logger.in_LEVELS in Hlevel.
  destruct (default (VStr "info") (cfg !! "level")) as [l|z|flag];
    [|done|done].
  logger_step. rewrite Hlevel. done.
Qed.

Lemma start_known_level_witness :
  Logger.in_LEVELS
    (default (VStr "info") ((∅ : gmap string value) !! "level")) = true
  ∧ (Logger.start (fun p => "/srv/" +:+ p)
       (Logger.__init__ ∅, sample_world)).1 = Ok tt.
Proof.
  split; [reflexivity|].
  refine (proj1
    (start_known_level (fun p => "/srv/" +:+ p) ∅ sample_world
       eq_refl _)).
  intros v Hv. discriminate Hv.
Defined.

(** X13. When the configured level is a string, an integer or a boolean
    that is not a key of [LEVELS], and [logfile] is a string or absent,
    [start] returns normally with the level [info] in effect, takes two
    chains from the allocator, and the last event it emitted is the warning
    whose message quotes the text of the rejected value. *)
Theorem start_falls_back_to_info (abspath : string → string)
    (cfg : gmap string value) (w : Logger.world) (v : value) :
  cfg !! "level" = Some v →
  Logger.in_LEVELS v = false →
  (∀ x, cfg !! "logfile" = Some x → ∃ p, x = VStr p) →
  let r := Logger.start abspath (Logger.__init__ cfg, w) in
  let cursor := _intern_chain (Logger.events w) in
  r.1 = Ok tt
  ∧ Logger.log_level r.2.1 = Some (VStr "info")
  ∧ Logger.events r.2.2
    = (chain None (chain None (Logger.events w)).2).2
  ∧ length (Logger.emitted r.2.2) = (length (Logger.emitted w) + 2)%nat
  ∧ last (Logger.emitted r.2.2)
    = Some (LogEvent
              (Event.mk "logger" (make_timestamp (Logger.now w))
                 (mkChain 0 (flow cursor + 1)))
              "warning"
              ("Invalid log level specified in config.toml '" +:+ py_str v
               +:+ "'. Defaulting to 'info'")).
Proof.
  intros Hv Hlevel Hlogfile r cursor.
  assert (Hpath : ∃ path, default (VStr "sapphire.log") (cfg !! "logfile")
                          = VStr path).
  { destruct (cfg !! "logfile") as [x|] eqn:Hx; [|by eexists].
    destruct (Hlogfile x eq_refl) as [p ->]. by eexists. }
  destruct Hpath as [path Hpath].
  subst r. logger_unfold. logger_step. rewrite Hpath. logger_step.
  rewrite Hv. logger_step.
  assert (Hnot : negb match v with
                      | VStr s => bool_decide (is_Some (LEVELS !! s))
                      | _ => false
                      end = true).
  { unfold Logger.in_LEVELS in Hlevel. by rewrite Hlevel. }
  rewrite Hnot. logger_step.
  split_and!; try done.
  - rewrite !length_app. simpl. lia.
  - by rewrite <- app_assoc, last_app.
Qed.

Lemma start_falls_back_to_info_witness :
  (<["level" := VInt 7]> ∅ : gmap string value) !! "level" = Some (VInt 7)
  ∧ Logger.in_LEVELS (VInt 7) = false
  ∧ Logger.log_level
      (Logger.start (fun p => "/srv/" +:+ p)
         (Logger.__init__ (<["level" := VInt 7]> ∅), sample_world)).2.1
    = Some (VStr "info").
Proof.
  split; [reflexivity|]. split; [reflexivity|].
  refine (proj1 (proj2
    (start_falls_back_to_info (fun p => "/srv/" +:+ p)
       (<["level" := VInt 7]> ∅) sample_world (VInt 7)
       eq_refl eq_refl _))).
  intros x Hx. discriminate Hx.
Defined.

Lemma count_LF_append (s t : string) :
  count_LF (s +:+ t) = (count_LF s + count_LF t)%nat.
Proof.
  induction s as [|c s IH]; [done|]. rewrite append_cons. simpl.
  rewrite IH. lia.
Qed.

Lemma upper_char_LF (c : ascii) :
  Ascii.eqb (upper_char c) (ascii_of_nat 10) = Ascii.eqb c (ascii_of_nat 10).
Proof. destruct c as [[] [] [] [] [] [] [] []]; reflexivity. Qed.

Lemma lower_char_LF (c : ascii) :
  Ascii.eqb (lower_char c) (ascii_of_nat 10) = Ascii.eqb c (ascii_of_nat 10).
Proof. destruct c as [[] [] [] [] [] [] [] []]; reflexivity. Qed.

Lemma count_LF_upper (s : string) : count_LF (upper s) = count_LF s.
Proof.
  induction s as [|c s IH]; [done|]. simpl. by rewrite upper_char_LF, IH.
Qed.

Lemma count_LF_lower (s : string) : count_LF (lower s) = count_LF s.
Proof.
  induction s as [|c s IH]; [done|]. simpl. by rewrite lower_char_LF, IH.
Qed.

Lemma count_LF_capitalize (s : string) :
  count_LF (capitalize s) = count_LF s.
Proof.
  destruct s as [|c s]; [done|]. simpl.
  by rewrite upper_char_LF, count_LF_lower.
Qed.

(** X14. The text [file_log] writes holds one line feed, its last
    character, besides those that the timestamp, the level, the sender and
    the message of the event bring along: it is a single line exactly when
    none of the four holds a line feed. *)
Theorem file_line_line_feeds (b : Event.t) (level message : string) :
  count_LF (Logger.file_line b level message)
  = (count_LF (Event.timestamp b) + count_LF level
     + count_LF (Event.sender b) + count_LF message + 1)%nat
  ∧ ∃ body, Logger.file_line b level message = body +:+ LF.
Proof.
  unfold Logger.file_line. split.
  - rewrite !count_LF_append, count_LF_upper, count_LF_capitalize.
    simpl. lia.
  - eexists. rewrite <- !append_assoc. reflexivity.
Qed.

(** X15. The colour table and the rank table have the same keys, so an
    event that passed the comparison of ranks always has a colour:
    [terminal_log] raises for no level that [LEVELS] knows, and for every
    other level. *)
Theorem level_tables_agree (self : Logger.t) (w : Logger.world)
    (b : Event.t) (level message : string) :
  dom Color.level_map = dom LEVELS
  ∧ (is_Some (LEVELS !! level) ↔
     (Logger.terminal_log b level message (self, w)).1 = Ok tt)
  ∧ (LEVELS !! level = None ↔
     Logger.terminal_log b level message (self, w)
     = (Raise (mkExn KeyError level), (self, w))).
Proof.
  assert (Hdom : dom Color.level_map = dom LEVELS).
  { unfold Color.level_map, LEVELS. rewrite !dom_list_to_map_L. done. }
  assert (Hnone : LEVELS !! level = None
                  ↔ Color.level_map !! level = None).
  { by rewrite <- !not_elem_of_dom, Hdom. }
  split; [done|]. logger_unfold. logger_step.
  destruct (Color.level_map !! level) as [colour|];
    destruct (LEVELS !! level) as [rank|]; logger_step.
  - split; split; try done; try by eexists.
  - by destruct Hnone as [Hnone _]; specialize (Hnone eq_refl).
  - by destruct Hnone as [_ Hnone]; specialize (Hnone eq_refl).
  - split; split; try done; try by intros [? ?].
Qed.

(** X16. When the log file can be opened, two calls of [file_log] run one
    after the other, for events whose sender and level are ASCII text,
    leave both lines in the log file, the first before the second, after
    what the file held; no other file is created or changed. *)
Theorem file_log_twice (self : Logger.t) (w : Logger.world)
    (b1 b2 : Event.t) (level1 message1 level2 message2 path : string) :
  Logger.log_file self = Some path →
  Logger.open_error w path = None →
  ascii_only (Event.sender b1) = true → ascii_only level1 = true →
  ascii_only (Event.sender b2) = true → ascii_only level2 = true →
  let r1 := Logger.file_log b1 level1 message1 (self, w) in
  let r2 := Logger.file_log b2 level2 message2 r1.2 in
  r2.1 = Ok tt
  ∧ Logger.files r2.2.2 !! path
    = Some (default "" (Logger.files w !! path)
            +:+ Logger.file_line b1 level1 message1
            +:+ Logger.file_line b2 level2 message2)
  ∧ ∀ other, other ≠ path →
      Logger.files r2.2.2 !! other = Logger.files w !! other.
Proof.
  intros Hpath Hopen _ _ _ _ r1 r2. subst r1 r2.
  assert (Hopen' : ∀ fs,
    Logger.open_error
      {| Logger.events := Logger.events w;
         Logger.now := Logger.now w;
         Logger.refused := Logger.refused w;
         Logger.files := fs;
         Logger.stdout := Logger.stdout w;
         Logger.emitted := Logger.emitted w |} path = None).
  { intros fs. exact Hopen. }
  logger_unfold. logger_step. rewrite Hpath. logger_step.
  rewrite Hopen. logger_step. rewrite Hpath. logger_step.
  rewrite Hopen'. logger_step. split_and!; [done| |].
  - rewrite !lookup_insert_eq. cbn [default id]. by rewrite append_assoc.
  - intros other Hother. by rewrite !lookup_insert_ne.
Qed.

Lemma file_log_twice_witness :
  Logger.log_file sample_logger = Some "sapphire.log"
  ∧ Logger.open_error sample_world "sapphire.log" = None
  ∧ ascii_only (Event.sender sample_base) = true
  ∧ Logger.files
      (Logger.file_log sample_base "info" "two"
         (Logger.file_log sample_base "info" "one"
            (sample_logger, sample_world)).2).2.2 !! "sapphire.log"
    = Some ("earlier" +:+ LF
            +:+ Logger.file_line sample_base "info" "one"
            +:+ Logger.file_line sample_base "info" "two").
Proof.
  split; [reflexivity|]. split; [reflexivity|]. split; [reflexivity|].
  exact (proj1 (proj2
    (file_log_twice sample_logger sample_world sample_base sample_base
       "info" "one" "info" "two" "sapphire.log"
       eq_refl eq_refl eq_refl eq_refl eq_refl eq_refl))).
Defined.

(** ** The event classes, continued *)

Lemma bind_args_dom (fs : list (string * option pyobj)) (args : list pyobj)
    (d : gmap string pyobj) :
  Cls.bind_args fs args = Ok d →
  dom d = list_to_set fs.*1 ∧ (length args ≤ length fs)%nat.
Proof.
  revert args d. induction fs as [|[n dflt] fs IH]; intros args d.
  - destruct args; cbn [Cls.bind_args]; [|done].
    intros [= <-]. rewrite dom_empty_L. split; [done | simpl; lia].
  - destruct args as [|a args]; cbn [Cls.bind_args].
    + destruct dflt as [v|]; [|done].
      destruct (Cls.bind_args fs []) as [m|] eqn:Hm; [|done].
      intros [= <-]. destruct (IH [] m Hm) as [Hdom _].
      rewrite dom_insert_L, Hdom. split; [done | simpl; lia].
    + destruct (Cls.bind_args fs args) as [m|] eqn:Hm;
        destruct dflt; [| |done|done];
        (intros [= <-]; destruct (IH args m Hm) as [Hdom Hlen]).
      all: rewrite dom_insert_L, Hdom; split; [done | simpl; lia].
Qed.

(** X17. Whatever the class and the arguments, an instance that the
    generated constructor builds holds exactly the fields its class and
    the base class declare, no more and no fewer, and the constructor took
    no more arguments than there are fields. *)
Theorem init_binds_declared_fields (c : Cls.t) (args : list pyobj)
    (d : gmap string pyobj) :
  Cls.init c args = Ok d →
  dom d = list_to_set (Cls.fields c).*1
  ∧ (length args ≤ length (Cls.fields c))%nat.
Proof. apply bind_args_dom. Qed.

Lemma init_binds_declared_fields_witness :
  Cls.init Cls.Chain [OVal (VInt 2); OVal (VInt 5)]
  = Ok (<["context" := OVal (VInt 2)]> (<["flow" := OVal (VInt 5)]> ∅))
  ∧ dom (<["context" := OVal (VInt 2)]>
           (<["flow" := OVal (VInt 5)]> (∅ : gmap string pyobj)))
    = list_to_set (Cls.fields Cls.Chain).*1.
Proof.
  split; [reflexivity|].
  exact (proj1
    (init_binds_declared_fields Cls.Chain
       [OVal (VInt 2); OVal (VInt 5)]
       (<["context" := OVal (VInt 2)]> (<["flow" := OVal (VInt 5)]> ∅))
       eq_refl)).
Defined.

Lemma event_class_fields (c : Cls.t) :
  c ∈ event_classes →
  ∃ own, Cls.fields c
         = [("sender", None); ("timestamp", None); ("chain", None)] ++ own.
Proof.
  unfold event_classes, concrete_events.
  rewrite !elem_of_cons, elem_of_nil. intros H.
  repeat (destruct H as [->|H]; [eexists; reflexivity|]). done.
Qed.

(** X18. The constructor of every event class, the base class and the
    sixteen concrete ones, takes [sender], [timestamp] and [chain] as its
    first three arguments and stores them under these names; with fewer
    than three arguments it raises [TypeError]. *)
Theorem event_constructors_take_base_fields (c : Cls.t) :
  c ∈ event_classes →
  (∀ s t ch rest d,
     Cls.init c (s :: t :: ch :: rest) = Ok d →
     d !! "sender" = Some s ∧ d !! "timestamp" = Some t
     ∧ d !! "chain" = Some ch)
  ∧ (∀ args, (length args < 3)%nat →
       ∃ e, Cls.init c args = Raise e ∧ exn_cls e = TypeError).
Proof.
  intros [own Hfields]%event_class_fields. unfold Cls.init.
  rewrite Hfields. split.
  - intros s t ch rest d. cbn [app Cls.bind_args].
    destruct (Cls.bind_args own rest) as [m|]; [|done].
    intros [= <-]. by simplify_map_eq.
  - intros [|a1 [|a2 [|a3 args]]] Hlen; cbn [app Cls.bind_args];
      [by eexists.. | simpl in Hlen; lia].
Qed.

Lemma event_constructors_take_base_fields_witness :
  Cls.LogEvent ∈ event_classes
  ∧ ∃ e, Cls.init Cls.LogEvent [OVal (VStr "logger")] = Raise e
         ∧ exn_cls e = TypeError.
Proof.
  assert (Cls.LogEvent ∈ event_classes) as Hin.
  { apply elem_of_cons. right. apply elem_of_cons. right.
    apply elem_of_cons. left. reflexivity. }
  split; [exact Hin|].
  refine (proj2 (event_constructors_take_base_fields Cls.LogEvent Hin)
            [OVal (VStr "logger")] _).
  simpl. lia.
Defined.

(** X19. [ShutdownEvent] is the one event class with a default: built from
    sender, timestamp, chain, emergency and situation alone its [message]
    is the empty string, and a sixth argument becomes the [message]
    instead. *)
Theorem ShutdownEvent_message_default (s t ch emergency situation m : pyobj) :
  (∃ d, Cls.init Cls.ShutdownEvent [s; t; ch; emergency; situation] = Ok d
        ∧ d !! "message" = Some (OVal (VStr ""))
        ∧ d !! "emergency" = Some emergency
        ∧ d !! "situation" = Some situation)
  ∧ (∃ d, Cls.init Cls.ShutdownEvent [s; t; ch; emergency; situation; m]
          = Ok d
          ∧ d !! "message" = Some m)
  ∧ (∀ c, c ∈ event_classes → c ≠ Cls.ShutdownEvent →
       Forall (fun f => f.2 = None) (Cls.fields c)).
Proof.
  split_and!.
  - eexists. split; [reflexivity|]. by simplify_map_eq.
  - eexists. split; [reflexivity|]. by simplify_map_eq.
  - intros c. unfold event_classes, concrete_events.
    rewrite !elem_of_cons, elem_of_nil. intros H Hc.
    repeat (destruct H as [->|H];
            [first [done | by repeat constructor]|]).
    done.
Qed.

(** ** Overlapping calls of the allocator *)

(** A call whose steps are run without another thread in between is the
    call of the histories above. *)
Lemma interleave_alone (s : state) :
  interleave [0; 0]%nat [Chain_called] s
  = ([Returned (chain None s).1], (chain None s).2)
  ∧ interleave [0; 0]%nat [Context_called] s
    = ([Returned (new_context_chain s).1], (new_context_chain s).2).
Proof. done. Qed.

(** C3. Two calls [chain()] that overlap: each thread reads the cursor,
    which [chain] does before it takes the lock, and then each writes under
    the lock. Both calls return the same chain, so the two returned flows
    are one value and not two distinct ones, and the cursor has advanced by
    one and not by two. *)
Theorem chain_overlapping_calls_collide (s : state) :
  let r := interleave [0; 1; 0; 1]%nat [Chain_called; Chain_called] s in
  r.1 = [Returned (_intern_chain s); Returned (_intern_chain s)]
  ∧ r.2 = set_intern_chain (mkChain 0 (flow (_intern_chain s) + 1)) s
  ∧ ¬ NoDup (flow <$> [_intern_chain s; _intern_chain s]).
Proof.
  split_and!; [done | done |].
  intros H. apply NoDup_cons in H as [H _]. apply H. by left.
Qed.

(** C4. Two calls [new_context_chain()] that overlap: each thread
    increments the counter under the lock, and then each reads the counter,
    which [new_context_chain] does after it has released the lock. Both
    calls return the same chain, so a context is handed out twice, and the
    context in between is handed out to nobody. *)
Theorem new_context_chain_overlapping_calls_collide (s : state) :
  let r := interleave [0; 1; 0; 1]%nat [Context_called; Context_called] s in
  r.1 = [Returned (mkChain (_current_context s + 2) 0);
         Returned (mkChain (_current_context s + 2) 0)]
  ∧ _current_context r.2 = _current_context s + 2
  ∧ ¬ NoDup (context <$> [mkChain (_current_context s + 2) 0;
                          mkChain (_current_context s + 2) 0]).
Proof.
  split_and!.
  - unfold interleave, advance, context_read, context_advance. simpl.
    by rewrite <- !Z.add_assoc.
  - unfold interleave, advance, context_read, context_advance. simpl. lia.
  - intros H. apply NoDup_cons in H as [H _]. apply H. by left.
Qed.

(** ** The file sink and the filter *)

Lemma count_LF_one (a b c d : nat) :
  (a + b + c + d + 1 = 1 ↔ a = 0 ∧ b = 0 ∧ c = 0 ∧ d = 0)%nat.
Proof. lia. Qed.

(** C6, as worded, fails: a message that holds a line feed makes
    [file_log] add two lines. *)
Lemma two_line_message_two_lines : ¬ appends_exactly_one_line.
Proof.
  intros H.
  destruct (H sample_logger sample_world sample_base "info"
              two_line_message "sapphire.log" eq_refl)
    as (line & Hline & Hcount).
  assert (Hfile :
    Logger.files
      (Logger.file_log sample_base "info" two_line_message
         (sample_logger, sample_world)).2.2 !! "sapphire.log"
    = Some (default "" (Logger.files sample_world !! "sapphire.log")
            +:+ Logger.file_line sample_base "info" two_line_message))
    by reflexivity.
  rewrite Hfile in Hline. apply (inj Some) in Hline.
  apply (inj (String.app _)) in Hline. subst line.
  vm_compute in Hcount. discriminate Hcount.
Qed.

(** C6, amended. On a started logger, for a log event whose sender and
    level are ASCII text: when the log file can be opened, [file_log]
    returns normally and changes nothing but the log file, to whose end it
    adds the text [[<timestamp>] [<LEVEL in upper case>] (<Capitalized
    sender>) <message>] and a line feed, the timestamp being the one the
    event carries; when [open] raises, [file_log] raises that error and
    nothing is written. The text ends with a line feed and is exactly one
    line when, and only when, none of timestamp, level, sender and message
    holds a line feed. For sender [logger], level [info] and message
    [ready] the text is [[<timestamp>] [INFO] (Logger) ready] and a line
    feed, also when the event was stamped by [make_timestamp] with the
    time of the call. *)
Theorem file_log_appends_line (self : Logger.t) (w : Logger.world)
    (b : Event.t) (level message path : string) :
  Logger.log_file self = Some path →
  ascii_only (Event.sender b) = true →
  ascii_only level = true →
  let before := default "" (Logger.files w !! path) in
  let line :=
    "[" +:+ Event.timestamp b +:+ "] [" +:+ upper level +:+ "] ("
    +:+ capitalize (Event.sender b) +:+ ") " +:+ message +:+ LF in
  let r := Logger.file_log b level message (self, w) in
  (Logger.open_error w path = None →
     r.1 = Ok tt
     ∧ r.2 = (self,
              {| Logger.events := Logger.events w;
                 Logger.now := Logger.now w;
                 Logger.refused := Logger.refused w;
                 Logger.files := <[path := before +:+ line]> (Logger.files w);
                 Logger.stdout := Logger.stdout w;
                 Logger.emitted := Logger.emitted w |})
     ∧ Logger.files r.2.2 !! path = Some (before +:+ line))
  ∧ (∀ failure, Logger.open_error w path = Some failure →
       r = (Raise (mkExn failure path), (self, w)))
  ∧ (∃ body, line = body +:+ LF)
  ∧ (count_LF line = 1%nat ↔
     count_LF (Event.timestamp b) = 0%nat ∧ count_LF level = 0%nat
     ∧ count_LF (Event.sender b) = 0%nat ∧ count_LF message = 0%nat)
  ∧ (∀ stamp c,
       Logger.open_error w path = None →
       Logger.files
         (Logger.file_log (Event.mk "logger" stamp c) "info" "ready"
            (self, w)).2.2 !! path
       = Some (before +:+ "[" +:+ stamp +:+ "] [INFO] (Logger) ready" +:+ LF))
  ∧ (∀ c,
       Logger.open_error w path = None →
       Logger.files
         (Logger.file_log
            (Event.mk "logger" (make_timestamp (Logger.now w)) c)
            "info" "ready" (self, w)).2.2 !! path
       = Some (before +:+ "[" +:+ strftime_HMS (Logger.now w)
               +:+ "] [INFO] (Logger) ready" +:+ LF)).
Proof.
  intros Hpath _ _ before line r.
  assert (Hrun : ∀ b' level' message',
    Logger.file_log b' level' message' (self, w)
    = match Logger.open_error w path with
      | Some failure => (Raise (mkExn failure path), (self, w))
      | None =>
          (Ok tt,
           (self,
            {| Logger.events := Logger.events w;
               Logger.now := Logger.now w;
               Logger.refused := Logger.refused w;
               Logger.files :=
                 <[path := before +:+ Logger.file_line b' level' message']>
                   (Logger.files w);
               Logger.stdout := Logger.stdout w;
               Logger.emitted := Logger.emitted w |}))
      end).
  { intros b' level' message'. logger_unfold. logger_step.
    rewrite Hpath. logger_step.
    by destruct (Logger.open_error w path). }
  split_and!.
  - intros Hopen. subst r. rewrite Hrun, Hopen. cbn [fst snd Logger.files].
    split_and!; [done | done | apply lookup_insert_eq].
  - intros failure Hopen. subst r. by rewrite Hrun, Hopen.
  - subst line. eexists. rewrite <- !append_assoc. reflexivity.
  - subst line.
    rewrite !count_LF_append, count_LF_upper, count_LF_capitalize.
    change (count_LF "[") with 0%nat. change (count_LF "] [") with 0%nat.
    change (count_LF "] (") with 0%nat. change (count_LF ") ") with 0%nat.
    change (count_LF LF) with 1%nat. lia.
  - intros stamp c Hopen. rewrite Hrun, Hopen. cbn [fst snd Logger.files].
    apply lookup_insert_eq.
  - intros c Hopen. rewrite Hrun, Hopen. cbn [fst snd Logger.files].
    apply lookup_insert_eq.
Qed.

Lemma file_log_appends_line_witness :
  Logger.log_file sample_logger = Some "sapphire.log"
  ∧ ascii_only (Event.sender sample_base) = true
  ∧ ascii_only "info" = true
  ∧ Logger.open_error sample_world "sapphire.log" = None
  ∧ Logger.files
      (Logger.file_log sample_base "info" "ready"
         (sample_logger, sample_world)).2.2 !! "sapphire.log"
    = Some ("earlier" +:+ LF +:+ "[09:05:33] [INFO] (Logger) ready" +:+ LF).
Proof.
  split; [reflexivity|]. split; [reflexivity|]. split; [reflexivity|].
  split; [reflexivity|].
  exact (proj2 (proj2 (proj1
    (file_log_appends_line sample_logger sample_world sample_base
       "info" "ready" "sapphire.log" eq_refl eq_refl eq_refl) eq_refl))).
Defined.

(** C5, as worded, fails: on a logger whose log file cannot be opened, an
    event whose rank reaches the configured one is not written; [handle]
    raises the error of [open] and nothing is written or printed. *)
Lemma unopened_file_not_written : ¬ written_iff_rank_reaches.
Proof.
  intros H.
  destruct (H pathless_logger sample_world sample_base "critical" "boom" ""
              "warning" (VBool true) 3 2 eq_refl eq_refl eq_refl eq_refl
              eq_refl) as [Hwritten _].
  assert (Hrun :
    Logger.handle (LogEvent sample_base "critical" "boom")
      (pathless_logger, sample_world)
    = (Raise (mkExn FileNotFoundError ""), (pathless_logger, sample_world)))
    by reflexivity.
  rewrite Hrun in Hwritten.
  assert (2 ≤ 3) as Hle by lia. specialize (Hwritten Hle).
  discriminate Hwritten.
Qed.

(** C5, amended. On a started logger, for a log event whose level is one
    of the four known ones and whose sender is ASCII text. The ranks are
    debug 0, info 1, warning 2, critical 3. When the rank of the event's
    level is lower than the rank of the configured level, [handle] returns
    normally and leaves the logger and the world exactly as they were.
    When it is at least that rank and the log file can be opened, [handle]
    returns normally, the event's line is added to the end of the log file
    and, when [terminal] is true, its coloured line is printed, and nothing
    else changes. When it is at least that rank and [open] raises, [handle]
    raises that error and nothing is written or printed. So, when the log
    file can be opened, the world changes if and only if the rank of the
    event's level is at least the rank of the configured level. *)
Theorem handle_filters_by_level (self : Logger.t) (w : Logger.world)
    (b : Event.t) (level message path configured : string) (term : value)
    (rank threshold : Z) :
  Logger.log_file self = Some path →
  Logger.log_level self = Some (VStr configured) →
  Logger.to_terminal self = Some term →
  LEVELS !! level = Some rank →
  LEVELS !! configured = Some threshold →
  ascii_only (Event.sender b) = true →
  let r := Logger.handle (LogEvent b level message) (self, w) in
  let line :=
    "[" +:+ Event.timestamp b +:+ "] [" +:+ upper level +:+ "] ("
    +:+ capitalize (Event.sender b) +:+ ") " +:+ message +:+ LF in
  map_to_list LEVELS
    ≡ₚ [("debug", 0); ("info", 1); ("warning", 2); ("critical", 3)]
  ∧ (rank < threshold → r = (Ok tt, (self, w)))
  ∧ (threshold ≤ rank → Logger.open_error w path = None →
       r.1 = Ok tt ∧ r.2.1 = self
       ∧ ∃ colour, Color.level_map !! level = Some colour
         ∧ r.2.2 =
             {| Logger.events := Logger.events w;
                Logger.now := Logger.now w;
                Logger.refused := Logger.refused w;
                Logger.files :=
                  <[path := default "" (Logger.files w !! path) +:+ line]>
                    (Logger.files w);
                Logger.stdout :=
                  if truthy term
                  then Logger.stdout w
                       ++ [Logger.terminal_line b level message colour]
                  else Logger.stdout w;
                Logger.emitted := Logger.emitted w |})
  ∧ (threshold ≤ rank →
       ∀ failure, Logger.open_error w path = Some failure →
         r = (Raise (mkExn failure path), (self, w)))
  ∧ (Logger.open_error w path = None → r.2.2 ≠ w ↔ threshold ≤ rank).
Proof.
  intros Hpath Hlevel Hterm Hrank Hthreshold _ r line.
  destruct (level_map_lookup level rank Hrank) as [colour Hcolour].
  set (written :=
    {| Logger.events := Logger.events w;
       Logger.now := Logger.now w;
       Logger.refused := Logger.refused w;
       Logger.files :=
         <[path := default "" (Logger.files w !! path) +:+ line]>
           (Logger.files w);
       Logger.stdout :=
         if truthy term
         then Logger.stdout w
              ++ [Logger.terminal_line b level message colour]
         else Logger.stdout w;
       Logger.emitted := Logger.emitted w |}).
  assert (Hrun :
    r = if (rank >=? threshold)%Z
        then match Logger.open_error w path with
             | Some failure => (Raise (mkExn failure path), (self, w))
             | None => (Ok tt, (self, written))
             end
        else (Ok tt, (self, w))).
  { subst r written. logger_unfold. logger_step.
    rewrite Hrank. logger_step. rewrite Hlevel. logger_step.
    rewrite Hthreshold. logger_step.
    destruct (rank >=? threshold)%Z; [|done].
    logger_step. rewrite Hpath. logger_step.
    destruct (Logger.open_error w path) as [failure|]; [done|].
    logger_step. rewrite Hterm. logger_step.
    destruct (truthy term); [|done].
    logger_step. rewrite Hcolour. done. }
  assert (Hchanged : written ≠ w).
  { intros Heq. apply (f_equal Logger.files) in Heq. cbn in Heq.
    apply (f_equal (lookup path)) in Heq. rewrite lookup_insert_eq in Heq.
    destruct (Logger.files w !! path) as [old|]; [|done].
    apply (inj Some) in Heq. cbn [default] in Heq.
    apply append_nonempty in Heq. discriminate Heq. }
  split_and!.
  - apply map_to_list_to_map. apply (bool_decide_unpack _). vm_compute. exact I.
  - intros Hlt. rewrite Hrun.
    destruct (Z.geb_spec rank threshold) as [Hge|_]; [lia|done].
  - intros Hle Hopen. rewrite Hrun, Hopen.
    rewrite (proj2 (Z.geb_le rank threshold) Hle).
    split_and!; [done | done |]. by exists colour.
  - intros Hle failure Hopen. rewrite Hrun, Hopen.
    by rewrite (proj2 (Z.geb_le rank threshold) Hle).
  - intros Hopen. rewrite Hrun, Hopen.
    destruct (Z.geb_spec rank threshold) as [Hge|Hlt]; cbn [fst snd].
    + split; [lia | by intros _].
    + split; [done | lia].
Qed.

Lemma handle_filters_by_level_witness :
  ascii_only (Event.sender sample_base) = true
  ∧ Logger.open_error sample_world "sapphire.log" = None
  ∧ (Logger.handle (LogEvent sample_base "critical" "boom")
       (sample_logger, sample_world)).1 = Ok tt
  ∧ Logger.handle (LogEvent sample_base "debug" "noise")
      (sample_logger, sample_world)
    = (Ok tt, (sample_logger, sample_world)).
Proof.
  split; [reflexivity|]. split; [reflexivity|]. split.
  - exact (proj1 (proj1 (proj2 (proj2
      (handle_filters_by_level sample_logger sample_world sample_base
         "critical" "boom" "sapphire.log" "warning" (VBool true) 3 2
         eq_refl eq_refl eq_refl eq_refl eq_refl eq_refl)))
      ltac:(done) eq_refl)).
  - exact (proj1 (proj2
      (handle_filters_by_level sample_logger sample_world sample_base
         "debug" "noise" "sapphire.log" "warning" (VBool true) 0 2
         eq_refl eq_refl eq_refl eq_refl eq_refl eq_refl)) eq_refl).
Defined.
